(** * The channel coordinator of laravel-echo-server (src/channels/channel.ts)

    A shallow embedding of the [Channel] class: channel classification by
    pattern, the join / leave / client-event entry points, and the membership
    bookkeeping they perform against the key-value store and the socket.io
    room registry. *)

From Stdlib Require Import Ascii String List ZArith Bool.
From stdpp Require Import base option list gmap strings.

Local Open Scope string_scope.
Local Open Scope list_scope.

(** ** Strings as character sequences

    A [string] stands for a JavaScript string whose code units are below
    256, one [ascii] per code unit. *)

Abbreviation chars := list_ascii_of_string.

(** JavaScript truthiness of a string: every string but the empty one. *)
Definition truthy (s : string) : bool :=
  match s with EmptyString => false | String _ _ => true end.

(** ** Regular expressions

    The fragment of RegExp that the glob conversion [p.replace('*', '.*')]
    produces out of the configured patterns: literal characters, the dot, and
    a postfix star.  [exec]-style search is unanchored, as [RegExp.test] is. *)
Module Regex.

Inductive regex : Type :=
| Void
| Eps
| Chr (c : ascii)
| Dot
| Seq (r1 r2 : regex)
| Alt (r1 r2 : regex)
| Star (r : regex).

(** [.] matches every character but a line terminator. *)
Definition line_terminator (c : ascii) : bool :=
  (Ascii.eqb c "010" || Ascii.eqb c "013")%char.

(** Characters with a meaning of their own in a pattern source ([.] is
    handled apart). *)
Definition meta (c : ascii) : bool :=
  existsb (Ascii.eqb c)
    (chars "\^$*+?()[]{}|").

(** The pattern source read as a sequence of atoms, each an ordinary
    character or a dot, optionally starred.  [None] stands for a source
    outside the fragment (among them the ones RegExp rejects, such as a
    star with nothing to repeat). *)
Fixpoint atoms (src : list ascii) : option (list regex) :=
  match src with
  | [] => Some []
  | c :: rest =>
      if meta c then None
      else
        let atom := if Ascii.eqb c "." then Dot else Chr c in
        match rest with
        | c' :: rest' =>
            if Ascii.eqb c' "*" then cons (Star atom) <$> atoms rest'
            else cons atom <$> atoms rest
        | [] => Some [atom]
        end
  end.

Definition sequence (rs : list regex) : regex := fold_right Seq Eps rs.

(** [new RegExp(src)] *)
Definition compile (src : string) : option regex :=
  sequence <$> atoms (chars src).

Fixpoint nullable (r : regex) : bool :=
  match r with
  | Void | Chr _ | Dot => false
  | Eps | Star _ => true
  | Seq r1 r2 => nullable r1 && nullable r2
  | Alt r1 r2 => nullable r1 || nullable r2
  end.

(** Brzozowski derivative. *)
Fixpoint deriv (a : ascii) (r : regex) : regex :=
  match r with
  | Void | Eps => Void
  | Chr c => if Ascii.eqb a c then Eps else Void
  | Dot => if line_terminator a then Void else Eps
  | Seq r1 r2 =>
      if nullable r1 then Alt (Seq (deriv a r1) r2) (deriv a r2)
      else Seq (deriv a r1) r2
  | Alt r1 r2 => Alt (deriv a r1) (deriv a r2)
  | Star r1 => Seq (deriv a r1) (Star r1)
  end.

(** Some prefix of [s] is in the language of [r]. *)
Fixpoint match_prefix (r : regex) (s : list ascii) : bool :=
  nullable r ||
  match s with
  | [] => false
  | a :: s' => match_prefix (deriv a r) s'
  end.

(** Some substring of [s] is in the language of [r]. *)
Fixpoint search (r : regex) (s : list ascii) : bool :=
  match_prefix r s ||
  match s with
  | [] => false
  | _ :: s' => search r s'
  end.

(** [regex.test(s)] for a regex without flags. *)
Definition test (r : regex) (s : string) : bool := search r (chars s).

(** Declarative semantics, against which the matcher is proved. *)
Inductive Matches : regex → list ascii → Prop :=
| MEps : Matches Eps []
| MChr c : Matches (Chr c) [c]
| MDot c : line_terminator c = false → Matches Dot [c]
| MSeq r1 r2 w1 w2 : Matches r1 w1 → Matches r2 w2 → Matches (Seq r1 r2) (w1 ++ w2)
| MAltL r1 r2 w : Matches r1 w → Matches (Alt r1 r2) w
| MAltR r1 r2 w : Matches r2 w → Matches (Alt r1 r2) w
| MStar0 r : Matches (Star r) []
| MStarS r w1 w2 : Matches r w1 → Matches (Star r) w2 → Matches (Star r) (w1 ++ w2).

End Regex.

(** [String.prototype.replace] with a string pattern of one character: only
    the first occurrence is replaced. *)
Fixpoint replace_first (c : ascii) (by_ : string) (s : string) : string :=
  match s with
  | EmptyString => EmptyString
  | String a s' => if Ascii.eqb a c then by_ +:+ s' else String a (replace_first c by_ s')
  end.

(** [new RegExp(pattern.replace('\*', '.*')).test(name)]; in a string
    literal the escape [\*] is the star itself. *)
Definition glob_test (pattern name : string) : bool :=
  match Regex.compile (replace_first "*" ".*" pattern) with
  | Some r => Regex.test r name
  | None => false
  end.

(** [forEach] over the patterns, setting the flag on each match. *)
Definition matches_any (patterns : list string) (name : string) : bool :=
  fold_left (fun flag p => if glob_test p name then true else flag) patterns false.

(** ** Channel classification *)

(** Channels and patterns for private channels. *)
Definition _privateChannels : list string := ["private-*"; "presence-*"].

(** Allowed client events. *)
Definition _clientEvents : list string := ["client-*"].

(** Check if the incoming socket connection is a private channel. *)
Definition isPrivate (channel : string) : bool :=
  matches_any _privateChannels channel.

(** Check if client is a client event. *)
Definition isClientEvent (event : string) : bool :=
  matches_any _clientEvents event.

(** Check if a channel is a presence channel:
    [channel.lastIndexOf('presence-', 0) === 0], a prefix test. *)
Definition isPresence (channel : string) : bool :=
  String.prefix "presence-" channel.

(** ** The user id encoded in a channel name

    [channel.match(re)], where [re] is the literal [user], then a dot, then
    the group of a starred [\d]: the leftmost place where [user] is followed
    by one character that is no line terminator; group 1 is the longest run
    of digits after it (possibly empty).  The result is [match[1]], or [None]
    when there is no match. *)

Definition is_digit (c : ascii) : bool :=
  (Ascii.leb "0" c && Ascii.leb c "9")%char.

Fixpoint take_digits (s : list ascii) : list ascii :=
  match s with
  | c :: s' => if is_digit c then c :: take_digits s' else []
  | [] => []
  end.

(** The regex tried at the very start of [s]. *)
Definition user_at (s : list ascii) : option (list ascii) :=
  match s with
  | "u" :: "s" :: "e" :: "r" :: d :: rest =>
      if Regex.line_terminator d then None else Some (take_digits rest)
  | _ => None
  end%char.

Fixpoint user_search (s : list ascii) : option (list ascii) :=
  match user_at s with
  | Some g => Some g
  | None => match s with
            | [] => None
            | _ :: s' => user_search s'
            end
  end.

Definition match_user (channel : string) : option string :=
  string_of_list_ascii <$> user_search (chars channel).

(** ** Data model *)

(** What travels opaquely through the coordinator: decoded JSON. *)
#[warnings="-register-all"]
Inductive JsVal : Type :=
| Undefined
| Null
| Bool (b : bool)
| Num (z : Z)
| Str (s : string)
| Arr (l : list JsVal)
| Obj (fields : list (string * JsVal)).

(** One participant of a channel, as persisted. *)
Record Member : Type := { userId : string; socketId : string }.

Global Instance Member_eq_dec : EqDecision Member.
Proof. solve_decision. Defined.

(** Values held by the key-value store: a member list under
    [<channel>:members], a number under [<channel>:members-count]. *)
Inductive Value : Type :=
| VMembers (l : list Member)
| VNumber (n : nat).

Global Instance Value_eq_dec : EqDecision Value.
Proof. solve_decision. Defined.

Definition members_key (channel : string) : string := channel +:+ ":members".
Definition count_key (channel : string) : string := channel +:+ ":members-count".

(** The payload of a join request. *)
Record JoinData : Type := { data_channel : option string }.

(** The payload of a client event: on the wire [event] and [channel] are
    strings when present, [data] is arbitrary. *)
Record EventData : Type :=
  { ev_event : option string; ev_channel : option string; ev_data : JsVal }.

(** What a client sends with a client event: a text, an object, nothing
    ([undefined]) or [null].  A number, a boolean or an array goes the way
    of the text [String] gives for it: that text is what [JSON.parse] reads,
    and where it does not parse the value kept has no [event]. *)
Inductive ClientPayload : Type :=
| Text (s : string)
| Object (d : EventData)
| NoPayload
| NullPayload.

(** The value the handler holds once it has tried [JSON.parse], as far as
    it looks at it: [null] or [undefined] (a property access throws), an
    object, or any other value (its [event] property is undefined). *)
Inductive Decoded : Type :=
| DNull
| DOther
| DObject (d : EventData).

(** The outcome of the authorization handshake: the promise resolves with
    [res] or is rejected with an error carrying [reason] and [status]. *)
Record AuthGrant : Type := { channel_data : option string }.
Record AuthError : Type := { reason : string; status : Z }.
Definition AuthResult : Type := AuthGrant + AuthError.

Record Options : Type :=
  { devMode : bool;
    authHost : string;
    hookHost : option string;
    hookEndpoint : option string }.

(** The request built by [prepareHookHeaders]. *)
Record HookRequest : Type :=
  { url : string;
    form_userId : option string;
    form_event : string;
    form_channel : string;
    header_Cookie : option string;
    header_X_Requested_With : string }.

Inductive HttpReply : Type :=
| NetworkError (e : string)
| Response (statusCode : Z) (body : string).

Inductive LogLevel : Type := LInfo | LError | LWarning.

(** What the coordinator asks of its collaborators, in the order asked.  A
    log line is recorded without the time stamp the code puts in front of
    it in dev mode. *)
Inductive Effect : Type :=
| Authenticate (sid channel : string)
| SocketJoin (sid room : string)
| SocketLeave (sid room : string)
| Clients (room : string)
| DbGet (key : string)
| DbSet (key : string) (v : Value)
| EmitTo (room event : string) (args : list JsVal)
| Broadcast (sender room event : string) (args : list JsVal)
| HttpPost (req : HookRequest)
| Log (level : LogLevel) (msg : string).

(** The world the coordinator acts on. *)
Record State : Type :=
  { store : gmap string Value;          (* contents of the key-value store *)
    store_error : option string;        (* [Some e]: the store rejects with [e] *)
    rooms : gset (string * string);     (* (room, connection id): who is in which room *)
    userIds : gmap string string;       (* [socket.userId], by connection id *)
    cookies : gmap string string }.     (* [socket.request.headers.cookie] *)

Definition set_store (f : gmap string Value → gmap string Value) (st : State) : State :=
  {| store := f (store st); store_error := store_error st; rooms := rooms st;
     userIds := userIds st; cookies := cookies st |}.

Definition set_rooms (f : gset (string * string) → gset (string * string)) (st : State) : State :=
  {| store := store st; store_error := store_error st; rooms := f (rooms st);
     userIds := userIds st; cookies := cookies st |}.

Definition set_userIds (f : gmap string string → gmap string string) (st : State) : State :=
  {| store := store st; store_error := store_error st; rooms := rooms st;
     userIds := f (userIds st); cookies := cookies st |}.

(** ** A monad for handlers: state, a trace of effects, exceptions

    The run of a handler is its execution with nothing interleaved: its
    synchronous part in program order, then the callbacks of the promises it
    started, each one when its answer is there.  The trace lists the
    requests made to the collaborators in that order. *)

Inductive Outcome (A : Type) : Type :=
| Done (a : A)
| Thrown (e : string).
Arguments Done {A} a.
Arguments Thrown {A} e.

Definition M (A : Type) : Type := State → Outcome A * State * list Effect.

Definition run {A} (m : M A) (st : State) : Outcome A * State * list Effect := m st.
Definition outcome {A} (r : Outcome A * State * list Effect) : Outcome A := r.1.1.
Definition final {A} (r : Outcome A * State * list Effect) : State := r.1.2.
Definition trace {A} (r : Outcome A * State * list Effect) : list Effect := r.2.

Global Instance M_ret : MRet M := λ A a st, (Done a, st, []).

Global Instance M_bind : MBind M := λ A B f m st,
  match m st with
  | (Done a, st1, t1) =>
      match f a st1 with
      | (r, st2, t2) => (r, st2, t1 ++ t2)
      end
  | (Thrown e, st1, t1) => (Thrown e, st1, t1)
  end.

Definition throw {A} (e : string) : M A := λ st, (Thrown e, st, []).
Definition tell (e : Effect) : M unit := λ st, (Done (), st, [e]).
Definition gets {A} (f : State → A) : M A := λ st, (Done (f st), st, []).
Definition modify (f : State → State) : M unit := λ st, (Done (), f st, []).
Definition when (b : bool) (m : M unit) : M unit := if b then m else mret ().

(** Several handlers one after the other, none interleaved with another. *)
Fixpoint sequence_ (ms : list (M unit)) : M unit :=
  match ms with
  | [] => mret ()
  | m :: ms' => m ;; sequence_ ms'
  end.

(** ** Primitives of the collaborators *)

(** The result of a promise. *)
Inductive Settled (A : Type) : Type :=
| Resolved (a : A)
| Rejected (e : string).
Arguments Resolved {A} a.
Arguments Rejected {A} e.

(** Modelled from the spec: the [Database] class (src/database, not among the
    sources) is the key-value store of section 6, [get(key) -> value|null]
    and [set(key, value)]; a store failure rejects the request.  The store
    of a state either answers every request or rejects every request: a
    store that takes one write of a handler and rejects the next is not
    among the states, and nothing below speaks of one. *)
Definition db_get (key : string) : M (Settled (option Value)) := λ st,
  match store_error st with
  | None => (Done (Resolved (store st !! key)), st, [DbGet key])
  | Some e => (Done (Rejected e), st, [DbGet key])
  end.

Definition db_set (key : string) (v : Value) : M unit := λ st,
  match store_error st with
  | None => (Done (), set_store (insert key v) st, [DbSet key v])
  | Some e => (Done (), st, [DbSet key v])
  end.

(** [socket.join(room)] and [socket.leave(room)] of socket.io. *)
Definition socket_join (sid room : string) : M unit :=
  tell (SocketJoin sid room) ;; modify (set_rooms (λ r, {[ (room, sid) ]} ∪ r)).

Definition socket_leave (sid room : string) : M unit :=
  tell (SocketLeave sid room) ;; modify (set_rooms (λ r, r ∖ {[ (room, sid) ]})).

(** [clients.indexOf(id) >= 0] for the [clients] that
    [io.of("/").in(room).clients] reports. *)
Definition alive (st : State) (room id : string) : bool :=
  bool_decide ((room, id) ∈ rooms st).

(** Whom socket.io delivers an emission to: [to(room)] reaches the room,
    [broadcast] leaves the sender out. *)
Definition receives (st : State) (e : Effect) (id : string) : bool :=
  match e with
  | EmitTo room _ _ => alive st room id
  | Broadcast sender room _ _ => alive st room id && negb (String.eqb id sender)
  | _ => false
  end.

Definition is_emission (e : Effect) : bool :=
  match e with
  | EmitTo _ _ _ | Broadcast _ _ _ _ => true
  | _ => false
  end.

Definition is_store_access (e : Effect) : bool :=
  match e with DbGet _ | DbSet _ _ => true | _ => false end.

Definition is_room_join (e : Effect) : bool :=
  match e with SocketJoin _ _ => true | _ => false end.

(** [members || []], then used as an array: a list is itself, [null] and
    [0] give the empty list, any other number has no [filter]. *)
Definition as_list (v : option Value) : option (list Member) :=
  match v with
  | None => Some []
  | Some (VMembers l) => Some l
  | Some (VNumber O) => Some []
  | Some (VNumber (S _)) => None
  end.

(** The member list of a channel as [getMembers] followed by [|| []] reads it. *)
Definition persisted_members (st : State) (channel : string) : option (list Member) :=
  as_list (store st !! members_key channel).

(** ** The coordinator *)

(** Modelled from the spec: the [PrivateChannel] class (src/channels/private-channel,
    not among the sources) is the authorizer of section 4.2,
    [authenticate(connection, channel) -> Promise<AuthorizationResult>]: one call
    to the backend, settled as a grant or as a denial with reason and status. *)
Record PrivateChannel : Type :=
  { authenticate : string → JoinData → AuthResult }.

(** Modelled from the spec: the [PresenceChannel] class (src/channels/presence-channel,
    not among the sources) offers [join(socket, channel, member)] and
    [leave(socket, channel)]; nothing is assumed of what they do. *)
Record PresenceChannel : Type :=
  { presence_join : string → string → JsVal → M unit;
    presence_leave : string → string → M unit }.

(** The fields of a [Channel] instance, and the [JSON.parse] of the runtime
    it runs on. *)
Record Channel : Type :=
  { options : Options;
    private : PrivateChannel;
    presence : PresenceChannel;
    (* [request.post], by the reply its callback receives *)
    request_post : HookRequest → HttpReply;
    (* [JSON.parse]; [None] when it throws *)
    JSON_parse : string → option JsVal;
    (* [JSON.parse] of a client payload *)
    JSON_parse_event : string → option Decoded }.

(** Get the members of a presence channel. *)
Definition getMembers (channel : string) : M (Settled (option Value)) :=
  db_get (channel +:+ ":members").

(** Remove inactive channel members from the presence channel. *)
Definition removeInactive (channel : string) (members : option Value) (member : Member)
  : M (list Member) :=
  tell (Clients channel) ;;
  st ← gets id ;
  match as_list members with
  | Some list =>
      mret (filter (λ m, alive st channel (socketId m) = true
                         ∧ userId m ≠ userId member) list)
  | None => throw "TypeError: list.filter is not a function"
  end.

(** On join a channel log success. *)
Definition onJoin (this : Channel) (sid channel : string) : M unit :=
  match match_user channel with
  | Some digits =>
      when (truthy digits) (modify (set_userIds (insert sid digits)))
  | None => mret ()
  end ;;
  when (devMode (options this)) (tell (Log LInfo (sid +:+ " joined channel: " +:+ channel))).

(** Join private channel, emit data to presence channels. *)
Definition joinPrivate (this : Channel) (sid : string) (data : JoinData) (channel : string) : M unit :=
  tell (Authenticate sid channel) ;;
  match authenticate (private this) sid data with
  | inl res =>
      socket_join sid channel ;;
      when (isPresence channel)
        (let member :=
           match channel_data res with
           | Some text => match JSON_parse this text with
                          | Some v => v
                          | None => Str text
                          end
           | None => Undefined
           end in
         presence_join (presence this) sid channel member) ;;
      onJoin this sid channel
  | inr error =>
      when (devMode (options this)) (tell (Log LError (reason error))) ;;
      tell (EmitTo sid "subscription_error" [Str channel; Num (status error)])
  end.

(** The callbacks of [join], run once the store has answered. *)
Definition join_members_read (sid channel : string) (r : Settled (option Value)) : M unit :=
  match r with
  | Resolved members =>
      uid ← gets (λ st, default "" (userIds st !! sid)) ;
      let member := {| userId := uid; socketId := sid |} in
      list ← removeInactive channel members member ;
      let members := list ++ [member] in
      db_set (channel +:+ ":members") (VMembers members) ;;
      db_set (channel +:+ ":members-count") (VNumber (length members))
  | Rejected error => tell (Log LError error)
  end.

(** Join a channel. *)
Definition join (this : Channel) (sid : string) (data : JoinData) : M unit :=
  match data_channel data with
  | Some channel =>
      if truthy channel then
        if isPrivate channel then joinPrivate this sid data channel
        else
          onJoin this sid channel ;;
          socket_join sid channel ;;
          uid ← gets (λ st, userIds st !! sid) ;
          match uid with
          | Some u =>
              if truthy u then
                r ← getMembers channel ;
                join_members_read sid channel r
              else mret ()
          | None => mret ()
          end
      else mret ()
  | None => mret ()
  end.

(** Prepare headers for request to app server. *)
Definition prepareHookHeaders (this : Channel) (sid channel hookEndpoint event : string) : M HookRequest :=
  gets (λ st,
    let hookHost := match hookHost (options this) with
                    | Some h => if truthy h then h else authHost (options this)
                    | None => authHost (options this)
                    end in
    {| url := hookHost +:+ hookEndpoint;
       form_userId := userIds st !! sid;
       form_event := event;
       form_channel := channel;
       header_Cookie := cookies st !! sid;
       header_X_Requested_With := "XMLHttpRequest" |}).

(** Call the webhook.  An endpoint that is not configured reaches the
    concatenation in [prepareHookHeaders] as [undefined] and is spelled out
    in the url.  The reply is handled where the request is made; on the
    running server it comes in later, so the lines logged for it may stand
    after those of the handler that called: the properties of [leave]
    below are stated so as not to depend on where they stand among the
    other lines. *)
Definition sendHook (this : Channel) (sid channel event : string) : M unit :=
  let hookEndpoint := default "undefined" (hookEndpoint (options this)) in
  req ← prepareHookHeaders this sid channel hookEndpoint event ;
  tell (HttpPost req) ;;
  let line := event +:+ " hook " +:+ sid +:+ " for " +:+ form_channel req in
  match request_post this req with
  | NetworkError error =>
      when (devMode (options this)) (tell (Log LError ("Error call " +:+ line))) ;;
      tell (Log LError error)
  | Response statusCode body =>
      if Z.eqb statusCode 200 then
        when (devMode (options this))
          (tell (Log LInfo ("Call " +:+ event +:+ " hook for " +:+ sid +:+ " for "
                            +:+ form_channel req +:+ ": " +:+ body)))
      else
        when (devMode (options this))
          (tell (Log LWarning ("Error call " +:+ line)) ;; tell (Log LError body))
  end.

(** The callbacks of [leave], run once the store has answered. *)
Definition leave_members_read (sid channel : string) (r : Settled (option Value)) : M unit :=
  match r with
  | Resolved members =>
      match as_list members with
      | Some members =>
          let members := filter (λ m, socketId m ≠ sid) members in
          db_set (channel +:+ ":members") (VMembers members) ;;
          db_set (channel +:+ ":members-count") (VNumber (length members))
      | None => throw "TypeError: members.find is not a function"
      end
  | Rejected error => tell (Log LError error)
  end.

(** Leave a channel.  The store is asked first; its answer is handled
    after the synchronous rest of the handler. *)
Definition leave (this : Channel) (sid channel reason : string) : M unit :=
  if truthy channel then
    pending ← (if isPresence channel
               then presence_leave (presence this) sid channel ;; mret None
               else r ← getMembers channel ; mret (Some r)) ;
    socket_leave sid channel ;;
    when (match hookEndpoint (options this) with Some h => truthy h | None => false end)
      (sendHook this sid channel "leave") ;;
    when (devMode (options this))
      (tell (Log LInfo (sid +:+ " left channel: " +:+ channel +:+ " (" +:+ reason +:+ ")"))) ;;
    match pending with
    | Some r => leave_members_read sid channel r
    | None => mret ()
    end
  else mret ().

(** The property names every object inherits from [Object.prototype]; each
    holds a truthy value (a function, or the prototype itself). *)
Definition inherited_names : list string :=
  [ "constructor"; "toString"; "toLocaleString"; "valueOf"; "hasOwnProperty";
    "isPrototypeOf"; "propertyIsEnumerable"; "__proto__"; "__defineGetter__";
    "__defineSetter__"; "__lookupGetter__"; "__lookupSetter__" ].

Definition inherited (name : string) : bool := bool_decide (name ∈ inherited_names).

(** Check if a socket has joined a channel.  [socket.rooms] is a plain
    object that maps each room the connection is in to the room's name, so
    [!!socket.rooms[channel]] holds of a joined room with a non-empty name,
    and of every inherited property name, joined or not. *)
Definition isInChannel (st : State) (sid channel : string) : bool :=
  alive st channel sid && truthy channel || inherited channel.

(** [try { data = JSON.parse(data) } catch (e) { data = data }]: what the
    handler holds afterwards.  An object is no JSON text and stays as it is;
    so does a text that does not parse, and a string has no [event].
    [undefined] is no JSON text either and stays [undefined]; [null] is read
    as the text of [null] and parses to [null]. *)
Definition decoded (this : Channel) (payload : ClientPayload) : Decoded :=
  match payload with
  | Text s => match JSON_parse_event this s with
              | Some d => d
              | None => DOther
              end
  | Object d => DObject d
  | NoPayload => DNull
  | NullPayload => DNull
  end.

(** Trigger a client message. *)
Definition clientEvent (this : Channel) (sid : string) (payload : ClientPayload) : M unit :=
  match decoded this payload with
  | DNull => throw "TypeError: Cannot read property 'event' of null or undefined"
  | DOther => mret ()
  | DObject d =>
      match ev_event d, ev_channel d with
      | Some event, Some channel =>
          if truthy event && truthy channel then
            st ← gets id ;
            when (isClientEvent event && isPrivate channel && isInChannel st sid channel)
              (tell (Broadcast sid channel event [Str channel; ev_data d]))
          else mret ()
      | _, _ => mret ()
      end
  end.

(** ** The presence collaborator, as the specification describes it *)

(** The [userId] a decoded [channel_data] names. *)
Definition member_userId (v : JsVal) : option string :=
  match v with
  | Obj fields =>
      match list_find (λ kv, kv.1 = "userId") fields with
      | Some (_, (_, Str u)) => Some u
      | _ => None
      end
  | _ => None
  end.

(** Modelled from the spec: [PresenceChannel.join] and [PresenceChannel.leave]
    (src/channels/presence-channel, not among the sources) after section 4.3:
    join reads the snapshot, asks for the live connections of the room, drops
    the members that are not live or have the joining userId, appends the new
    member and persists the sequence and its length; leave reads the snapshot,
    removes the entry of the leaving connection and persists likewise. *)
Definition spec_presence : PresenceChannel :=
  {| presence_join := λ sid channel member,
       match member_userId member with
       | Some u =>
           r ← db_get (members_key channel) ;
           match r with
           | Resolved v =>
               tell (Clients channel) ;;
               st ← gets id ;
               let kept := filter (λ m, alive st channel (socketId m) = true ∧ userId m ≠ u)
                                  (default [] (as_list v)) in
               let members := kept ++ [{| userId := u; socketId := sid |}] in
               db_set (members_key channel) (VMembers members) ;;
               db_set (count_key channel) (VNumber (length members))
           | Rejected e => throw e
           end
       | None => mret ()
       end;
     presence_leave := λ sid channel,
       r ← db_get (members_key channel) ;
       match r with
       | Resolved v =>
           let members := filter (λ m, socketId m ≠ sid) (default [] (as_list v)) in
           db_set (members_key channel) (VMembers members) ;;
           db_set (count_key channel) (VNumber (length members))
       | Rejected e => throw e
       end |}.

(** ** Fixtures for examples *)

Definition initial : State :=
  {| store := ∅; store_error := None; rooms := ∅; userIds := ∅; cookies := ∅ |}.

Definition quiet : Options :=
  {| devMode := false; authHost := "http://localhost"; hookHost := None;
     hookEndpoint := None |}.

(** A backend that denies every request the same way. *)
Definition denying (why : string) (code : Z) : PrivateChannel :=
  {| authenticate := λ _ _, inr {| reason := why; status := code |} |}.

(** A channel instance with the given authorizer; its hook endpoint answers
    200, and no text it is given parses as JSON. *)
Definition channel_with (o : Options) (p : PrivateChannel) : Channel :=
  {| options := o; private := p; presence := spec_presence;
     request_post := λ _, Response 200 "";
     JSON_parse := λ _, None;
     JSON_parse_event := λ _, None |}.

Definition server : Channel := channel_with quiet (denying "Forbidden" 403).

(** ** Vocabulary of the properties *)

(** The regex a glob [lit*] turns into: the literal, then [.*]. *)
Definition literal_then_any (lit : list ascii) : Regex.regex :=
  Regex.sequence (map Regex.Chr lit ++ [Regex.Star Regex.Dot]).

(** [lit] occurs somewhere in [name]. *)
Definition contains (lit name : string) : Prop :=
  ∃ pre post : string, name = pre +:+ lit +:+ post.

(** An emission carries [v] among its arguments. *)
Definition carries (v : JsVal) (e : Effect) : Prop :=
  match e with
  | EmitTo _ _ args | Broadcast _ _ _ args => In v args
  | _ => False
  end.

(** [socket.userId] once [onJoin] has run for [channel]. *)
Definition userId_after (channel : string) (old : option string) : option string :=
  match match_user channel with
  | Some digits => if truthy digits then Some digits else old
  | None => old
  end.

(** Uniqueness of members by connection, and by user. *)
Definition unique_sockets (l : list Member) : Prop := NoDup (socketId <$> l).
Definition unique_users (l : list Member) : Prop := NoDup (userId <$> l).

(** A property of the member list persisted for a channel, whenever the
    store holds one. *)
Definition members_satisfy (P : list Member → Prop) (st : State) (channel : string) : Prop :=
  ∀ l, store st !! members_key channel = Some (VMembers l) → P l.

(** The same of every channel. *)
Definition members_invariant (P : list Member → Prop) (st : State) : Prop :=
  ∀ channel, members_satisfy P st channel.

(** The list on record for [channel] holds no entry of connection [sid]
    under a userId other than the one [sid] joins [channel] with. *)
Definition no_foreign_entry (st : State) (sid channel : string) : Prop :=
  ∀ l m, persisted_members st channel = Some l → m ∈ l → socketId m = sid →
         Some (userId m) = userId_after channel (userIds st !! sid).


(** The webhook is configured. *)
Definition hook_configured (o : Options) : bool :=
  match hookEndpoint o with Some h => truthy h | None => false end.

Definition is_hook (e : Effect) : bool :=
  match e with HttpPost _ => true | _ => false end.

Definition is_log (e : Effect) : bool :=
  match e with Log _ _ => true | _ => false end.

(** What the webhook call of a leave contributes to the trace. *)
Definition leave_hook_effects (this : Channel) (sid channel : string) (st : State) : list Effect :=
  trace (run (when (hook_configured (options this)) (sendHook this sid channel "leave")) st).

(** A join request for [channel]. *)
Definition join_request (channel : string) : JoinData := {| data_channel := Some channel |}.

(** A channel with three members on record: [B], connected; [C], no longer
    in the room; and [A0], an earlier connection of user 9 that is still in
    the room.  Connection [A] of user 9 is about to join. *)
Definition busy : State :=
  {| store := {[ "lobby:members" :=
                   VMembers [ {| userId := "5"; socketId := "B" |};
                              {| userId := "7"; socketId := "C" |};
                              {| userId := "9"; socketId := "A0" |} ];
                 "lobby:members-count" := VNumber 3 ]};
     store_error := None;
     rooms := {[ ("lobby", "B"); ("lobby", "A0") ]};
     userIds := {[ "A" := "9" ]};
     cookies := ∅ |}.

(** ** More vocabulary *)

(** A string of decimal digits. *)
Definition all_digits (s : string) : Prop :=
  Forall (λ c, is_digit c = true) (chars s).

(** The same world with the store failing with [e]. *)
Definition store_down (e : string) (st : State) : State :=
  {| store := store st; store_error := Some e; rooms := rooms st;
     userIds := userIds st; cookies := cookies st |}.

(** A backend that grants every request, with the given payload. *)
Definition granting (payload : option string) : PrivateChannel :=
  {| authenticate := λ _ _, inl {| channel_data := payload |} |}.

(** The world once [socket.join(channel)] has run for [sid], and once
    [onJoin] has. *)
Definition registered (sid channel : string) (st : State) : State :=
  set_rooms (λ r, {[ (channel, sid) ]} ∪ r) st.

Definition identified (sid channel : string) (st : State) : State :=
  set_userIds (λ u, match match_user channel with
                    | Some digits => if truthy digits then <[sid:=digits]> u else u
                    | None => u
                    end) st.

(** The requests a join may make, and those a leave may make. *)
Definition join_may (e : Effect) : bool :=
  match e with
  | HttpPost _ | SocketLeave _ _ | Broadcast _ _ _ _ => false
  | _ => true
  end.

Definition leave_may (e : Effect) : bool :=
  match e with
  | DbGet _ | DbSet _ _ | SocketLeave _ _ | HttpPost _ | Log _ _ => true
  | _ => false
  end.

(** [join] in two steps: up to the request for the member list, whose
    answer is pending when the handler returns, ... *)
Definition join_start (this : Channel) (sid : string) (data : JoinData)
  : M (option (Settled (option Value))) :=
  match data_channel data with
  | Some channel =>
      if truthy channel then
        if isPrivate channel then joinPrivate this sid data channel ;; mret None
        else
          onJoin this sid channel ;;
          socket_join sid channel ;;
          uid ← gets (λ st, userIds st !! sid) ;
          match uid with
          | Some u =>
              if truthy u then
                r ← getMembers channel ; mret (Some r)
              else mret None
          | None => mret None
          end
      else mret None
  | None => mret None
  end.

(** ... and the callback that handles the answer. *)
Definition join_finish (sid : string) (data : JoinData)
    (pending : option (Settled (option Value))) : M unit :=
  match pending, data_channel data with
  | Some r, Some channel => join_members_read sid channel r
  | _, _ => mret ()
  end.

(** Two joins interleaved the way the event loop may run them: both
    handlers return before either answer of the store is handled. *)
Definition joins_interleaved (this : Channel) (a b : string) (data : JoinData) : M unit :=
  pa ← join_start this a data ;
  pb ← join_start this b data ;
  join_finish a data pa ;;
  join_finish b data pb.

(** * Properties *)

Lemma chars_app (a b : string) : chars (a +:+ b) = chars a ++ chars b.
Proof. induction a as [|c a IH]; [reflexivity|]. cbn. now rewrite <- IH. Qed.

Lemma chars_inj (a b : string) : chars a = chars b → a = b.
Proof.
  intros H. rewrite <- (string_of_list_ascii_of_string a),
    <- (string_of_list_ascii_of_string b). now rewrite H.
Qed.

Lemma truthy_true (s : string) : truthy s = true ↔ s ≠ "".
Proof. destruct s; cbn; split; congruence. Qed.

Example isPrivate_private : isPrivate "private-orders" = true.
Proof. reflexivity. Qed.

Example isPrivate_public : isPrivate "lobby" = false.
Proof. reflexivity. Qed.

Example match_user_plain : match_user "user.42" = Some "42".
Proof. reflexivity. Qed.

Example match_user_none : match_user "lobby" = None.
Proof. reflexivity. Qed.


(** ** Store keys *)

Lemma members_key_inj (c c' : string) : members_key c = members_key c' → c = c'.
Proof.
  unfold members_key. intros H. apply (f_equal chars) in H.
  rewrite !chars_app in H. apply app_inj_2 in H; [|reflexivity].
  apply chars_inj, H.
Qed.

Lemma count_key_inj (c c' : string) : count_key c = count_key c' → c = c'.
Proof.
  unfold count_key. intros H. apply (f_equal chars) in H.
  rewrite !chars_app in H. apply app_inj_2 in H; [|reflexivity].
  apply chars_inj, H.
Qed.

Lemma members_key_not_count (c c' : string) : members_key c ≠ count_key c'.
Proof.
  unfold members_key, count_key. intros H. apply (f_equal chars) in H.
  rewrite !chars_app in H.
  change (chars ":members") with (chars ":member" ++ ["s"%char]) in H.
  change (chars ":members-count") with (chars ":members-coun" ++ ["t"%char]) in H.
  rewrite !app_assoc in H. apply app_inj_tail in H as [_ H]. discriminate H.
Qed.

(** ** The matcher against the declarative semantics *)

Section RegexFacts.

Import Regex.

Lemma Matches_seq_inv (r1 r2 : regex) (w : list ascii) :
  Matches (Seq r1 r2) w → ∃ w1 w2, w = w1 ++ w2 ∧ Matches r1 w1 ∧ Matches r2 w2.
Proof. inversion 1; subst; eauto. Qed.

Lemma Matches_alt_inv (r1 r2 : regex) (w : list ascii) :
  Matches (Alt r1 r2) w → Matches r1 w ∨ Matches r2 w.
Proof. inversion 1; subst; auto. Qed.

Lemma nullable_Matches (r : regex) : nullable r = true ↔ Matches r [].
Proof.
  induction r as [| | c | |r1 IH1 r2 IH2|r1 IH1 r2 IH2|r IH]; cbn.
  - split; [discriminate|inversion 1].
  - split; [constructor|reflexivity].
  - split; [discriminate|inversion 1].
  - split; [discriminate|inversion 1].
  - rewrite andb_true_iff, IH1, IH2. split.
    + intros [H1 H2]. apply (MSeq _ _ [] [] H1 H2).
    + intros H. apply Matches_seq_inv in H as (w1 & w2 & Hw & H1 & H2).
      destruct w1; [|discriminate Hw]. destruct w2; [|discriminate Hw]. auto.
  - rewrite orb_true_iff, IH1, IH2. split.
    + intros [H|H]; [apply MAltL|apply MAltR]; exact H.
    + apply Matches_alt_inv.
  - split; [constructor|reflexivity].
Qed.

Lemma Matches_star_cons (r : regex) (a : ascii) (w : list ascii) :
  Matches (Star r) (a :: w) →
  ∃ w1 w2, w = w1 ++ w2 ∧ Matches r (a :: w1) ∧ Matches (Star r) w2.
Proof.
  intros H. remember (Star r) as R eqn:HR. remember (a :: w) as s eqn:Hs.
  induction H as [| | | | | | |r' w1 w2 H1 _ H2 IH2]; try discriminate.
  injection HR as ->. destruct w1 as [|b w1].
  - cbn in Hs. apply IH2; [reflexivity|exact Hs].
  - cbn in Hs. injection Hs as Ha Hw. subst b w. exists w1, w2. auto.
Qed.

Lemma deriv_seq_Matches (r1 r2 : regex) (a : ascii) (w : list ascii) :
  (∀ w, Matches (deriv a r1) w ↔ Matches r1 (a :: w)) →
  Matches (Seq (deriv a r1) r2) w ↔
  ∃ w1 w2, w = w1 ++ w2 ∧ Matches r1 (a :: w1) ∧ Matches r2 w2.
Proof.
  intros IH1. split.
  - intros H. apply Matches_seq_inv in H as (w1 & w2 & -> & H1 & H2).
    exists w1, w2. split; [reflexivity|]. split; [apply IH1|]; assumption.
  - intros (w1 & w2 & -> & H1 & H2). constructor; [apply IH1|]; assumption.
Qed.

Lemma deriv_Matches (r : regex) (a : ascii) (w : list ascii) :
  Matches (deriv a r) w ↔ Matches r (a :: w).
Proof.
  revert w. induction r as [| | c | |r1 IH1 r2 IH2|r1 IH1 r2 IH2|r IH]; intros w; cbn.
  - split; inversion 1.
  - split; inversion 1.
  - destruct (Ascii.eqb_spec a c) as [->|Hne].
    + split; inversion 1; subst; constructor.
    + split; inversion 1; subst; congruence.
  - destruct (line_terminator a) eqn:Ha.
    + split; inversion 1; subst; congruence.
    + split; inversion 1; subst; constructor; exact Ha.
  - pose proof (deriv_seq_Matches r1 r2 a w IH1) as Hseq. split.
    + intros H.
      assert (Hcases : Matches (Seq (deriv a r1) r2) w ∨
                       (nullable r1 = true ∧ Matches (deriv a r2) w)).
      { destruct (nullable r1); [|left; exact H].
        apply Matches_alt_inv in H as [H|H]; [left|right]; auto. }
      destruct Hcases as [H'|[Hn H']].
      * apply Hseq in H' as (w1 & w2 & -> & H1 & H2).
        apply (MSeq _ _ (a :: w1) w2 H1 H2).
      * apply (MSeq _ _ [] (a :: w)); [apply nullable_Matches, Hn|apply IH2, H'].
    + intros H. apply Matches_seq_inv in H as (w1 & w2 & Hw & H1 & H2).
      destruct w1 as [|b w1].
      * cbn in Hw. subst w2. apply nullable_Matches in H1. rewrite H1.
        apply MAltR, IH2, H2.
      * cbn in Hw. injection Hw as Ha Hw. subst b w.
        assert (H' : Matches (Seq (deriv a r1) r2) (w1 ++ w2)).
        { apply Hseq. eauto. }
        destruct (nullable r1); [apply MAltL|]; exact H'.
  - split.
    + intros H. apply Matches_alt_inv in H as [H|H];
        [apply MAltL, IH1|apply MAltR, IH2]; exact H.
    + intros H. apply Matches_alt_inv in H as [H|H];
        [apply MAltL, IH1|apply MAltR, IH2]; exact H.
  - split.
    + intros H. apply Matches_seq_inv in H as (w1 & w2 & -> & H1 & H2).
      apply (MStarS _ (a :: w1) w2); [apply IH|]; assumption.
    + intros H. apply Matches_star_cons in H as (w1 & w2 & -> & H1 & H2).
      constructor; [apply IH|]; assumption.
Qed.

Lemma match_prefix_spec (r : regex) (s : list ascii) :
  match_prefix r s = true ↔ ∃ w t, s = w ++ t ∧ Matches r w.
Proof.
  revert r. induction s as [|a s IH]; intros r; cbn.
  - rewrite orb_false_r, nullable_Matches. split.
    + intros H. exists [], []. auto.
    + intros (w & t & Hs & H). destruct w; [exact H|discriminate Hs].
  - rewrite orb_true_iff, nullable_Matches, IH. split.
    + intros [H|(w & t & -> & H)].
      * exists [], (a :: s). auto.
      * exists (a :: w), t. split; [reflexivity|]. apply deriv_Matches, H.
    + intros (w & t & Hs & H). destruct w as [|b w].
      * left. exact H.
      * cbn in Hs. injection Hs as Ha Hs. subst b s. right. exists w, t.
        split; [reflexivity|]. apply deriv_Matches, H.
Qed.

Lemma search_spec (r : regex) (s : list ascii) :
  search r s = true ↔ ∃ p w t, s = p ++ w ++ t ∧ Matches r w.
Proof.
  induction s as [|a s IH].
  - cbn. rewrite !orb_false_r, nullable_Matches. split.
    + intros H. exists [], [], []. auto.
    + intros (p & w & t & Hs & H). destruct p; [|discriminate Hs].
      destruct w; [exact H|discriminate Hs].
  - cbn [search]. rewrite orb_true_iff, IH, match_prefix_spec. split.
    + intros [(w & t & Hs & H)|(p & w & t & -> & H)].
      * exists [], w, t. auto.
      * exists (a :: p), w, t. auto.
    + intros (p & w & t & Hs & H). destruct p as [|b p].
      * left. exists w, t. auto.
      * cbn in Hs. injection Hs as Ha Hs. subst b s. right. exists p, w, t. auto.
Qed.

Lemma literal_then_any_prefix (lit w : list ascii) :
  Matches (literal_then_any lit) w → ∃ t, w = lit ++ t.
Proof.
  revert w. unfold literal_then_any. induction lit as [|c lit IH]; intros w; cbn.
  - intros _. exists w. reflexivity.
  - intros H. apply Matches_seq_inv in H as (w1 & w2 & -> & H1 & H2).
    inversion H1; subst. apply IH in H2 as [t ->]. exists t. reflexivity.
Qed.

Lemma literal_then_any_self (lit : list ascii) :
  Matches (literal_then_any lit) lit.
Proof.
  unfold literal_then_any. induction lit as [|c lit IH]; cbn.
  - apply (MSeq _ _ [] []); constructor.
  - apply (MSeq _ _ [c] lit); [constructor|exact IH].
Qed.

Lemma search_literal_then_any (lit s : list ascii) :
  search (literal_then_any lit) s = true ↔ ∃ p t, s = p ++ lit ++ t.
Proof.
  rewrite search_spec. split.
  - intros (p & w & t & -> & H). apply literal_then_any_prefix in H as [t' ->].
    exists p, (t' ++ t). now rewrite <- app_assoc.
  - intros (p & t & ->). exists p, lit, t. split; [reflexivity|].
    apply literal_then_any_self.
Qed.

End RegexFacts.

(** ** Running handlers *)

Ltac exec :=
  unfold run, outcome, final, trace, join, joinPrivate, join_members_read, onJoin,
    leave, leave_members_read, sendHook, prepareHookHeaders, removeInactive,
    getMembers, clientEvent, socket_join, socket_leave, db_get, db_set, when,
    tell, gets, modify, throw, mbind, M_bind, mret, M_ret;
  cbn [fst snd].

Section Join.

Variable this : Channel.

(** C10. A join request without a channel name (the field absent, or the
    empty string) does nothing: the state, the connection's userId included,
    is what it was, and no collaborator is asked anything (no authorization,
    no room registration, no store access, no emission). *)
Theorem join_without_channel (sid : string) (st : State) :
  run (join this sid {| data_channel := None |}) st = (Done (), st, [])
  ∧ run (join this sid {| data_channel := Some "" |}) st = (Done (), st, []).
Proof. split; reflexivity. Qed.

(** What a denied join does, in full. *)
Lemma join_denied_run (sid channel : string) (data : JoinData) (error : AuthError) (st : State) :
  data_channel data = Some channel → channel ≠ "" → isPrivate channel = true →
  authenticate (private this) sid data = inr error →
  run (join this sid data) st =
    (Done (), st,
     Authenticate sid channel ::
     (if devMode (options this) then [Log LError (reason error)] else []) ++
     [EmitTo sid "subscription_error" [Str channel; Num (status error)]]).
Proof.
  intros Hch Hne Hpriv Hden. apply truthy_true in Hne.
  unfold join. rewrite Hch, Hne, Hpriv.
  exec. rewrite Hden. destruct (devMode (options this)); reflexivity.
Qed.

End Join.

(** ** Classification by pattern *)

Lemma contains_chars (lit name : string) :
  contains lit name ↔ ∃ p t : list ascii, chars name = p ++ chars lit ++ t.
Proof.
  split.
  - intros (pre & post & ->). exists (chars pre), (chars post).
    now rewrite !chars_app.
  - intros (p & t & H).
    exists (string_of_list_ascii p), (string_of_list_ascii t).
    apply chars_inj. rewrite !chars_app, !list_ascii_of_string_of_list_ascii. exact H.
Qed.

Lemma glob_test_literal_star (pattern lit name : string) :
  Regex.compile (replace_first "*" ".*" pattern) = Some (literal_then_any (chars lit)) →
  glob_test pattern name = true ↔ contains lit name.
Proof.
  intros Hc. unfold glob_test. rewrite Hc. unfold Regex.test.
  rewrite search_literal_then_any. symmetry. apply contains_chars.
Qed.

(** What [isPrivate] decides: [private-] or [presence-] occurs anywhere in
    the name. *)
Lemma isPrivate_contains (name : string) :
  isPrivate name = true ↔ contains "private-" name ∨ contains "presence-" name.
Proof.
  rewrite <- (glob_test_literal_star "private-*" "private-" name) by reflexivity.
  rewrite <- (glob_test_literal_star "presence-*" "presence-" name) by reflexivity.
  unfold isPrivate, matches_any, _privateChannels. cbn [fold_left].
  destruct (glob_test "private-*" name), (glob_test "presence-*" name);
    split; intros H; try reflexivity; try discriminate; auto.
  destruct H; discriminate.
Qed.

(** What [isClientEvent] decides: [client-] occurs anywhere in the name. *)
Lemma isClientEvent_contains (event : string) :
  isClientEvent event = true ↔ contains "client-" event.
Proof.
  rewrite <- (glob_test_literal_star "client-*" "client-" event) by reflexivity.
  unfold isClientEvent, matches_any, _clientEvents. cbn [fold_left].
  destruct (glob_test "client-*" event); split; intros H;
    try reflexivity; try discriminate; auto.
Qed.

Lemma prefix_app (s1 s2 : string) :
  String.prefix s1 s2 = true ↔ ∃ rest, s2 = s1 +:+ rest.
Proof.
  revert s2. induction s1 as [|a s1 IH]; intros s2.
  - split; [intros _; exists s2; reflexivity|]. intros _. now destruct s2.
  - destruct s2 as [|b s2]; cbn.
    + split; [discriminate|]. intros [rest H]. discriminate H.
    + destruct (ascii_dec a b) as [->|Hne].
      * rewrite IH. split; intros [rest H]; exists rest.
        -- now rewrite H.
        -- now injection H.
      * split; [discriminate|]. intros [rest H]. injection H as H _. congruence.
Qed.

Lemma isPresence_prefix (name : string) :
  isPresence name = true ↔ ∃ rest, name = "presence-" +:+ rest.
Proof. apply prefix_app. Qed.

(** Presence channels are private-style. *)
Lemma isPresence_isPrivate (name : string) : isPresence name = true → isPrivate name = true.
Proof.
  intros H. apply isPresence_prefix in H as [rest ->].
  apply isPrivate_contains. right. exists "", rest. reflexivity.
Qed.

Lemma isPrivate_truthy (name : string) : isPrivate name = true → truthy name = true.
Proof. destruct name; [discriminate|reflexivity]. Qed.

Lemma isClientEvent_truthy (name : string) : isClientEvent name = true → truthy name = true.
Proof. destruct name; [discriminate|reflexivity]. Qed.

(** C5. [isPrivate] does not anchor its patterns: a name that merely
    contains [private-] is private-style although it begins with neither
    [private-] nor [presence-], while the sibling [isPresence] is a true
    prefix test. *)
Theorem isPrivate_not_anchored :
  isPrivate "xprivate-foo" = true
  ∧ String.prefix "private-" "xprivate-foo" = false
  ∧ String.prefix "presence-" "xprivate-foo" = false
  ∧ isPrivate "my-presence-room" = true
  ∧ isPresence "my-presence-room" = false.
Proof. repeat split; reflexivity. Qed.

(** ** Denied authorization *)

(** C3. When the backend denies a private-channel join, the join changes
    nothing: the state after it is the state before it (room registry and
    store included), and among the requests it made there is no room
    registration and no access to the store. *)
Theorem denied_join_changes_nothing (this : Channel) (sid channel : string)
    (data : JoinData) (error : AuthError) (st : State) :
  data_channel data = Some channel → channel ≠ "" → isPrivate channel = true →
  authenticate (private this) sid data = inr error →
  let r := run (join this sid data) st in
  final r = st
  ∧ alive (final r) channel sid = alive st channel sid
  ∧ store (final r) = store st
  ∧ Forall (λ e, is_room_join e = false ∧ is_store_access e = false) (trace r).
Proof.
  intros Hch Hne Hpriv Hden r. subst r.
  rewrite (join_denied_run this sid channel data error st Hch Hne Hpriv Hden).
  unfold final, trace. cbn [fst snd].
  repeat split; try reflexivity.
  destruct (devMode (options this)); repeat constructor.
Qed.

Lemma denied_join_changes_nothing_witness :
  let r := run (join server "A" (join_request "private-orders")) initial in
  final r = initial
  ∧ alive (final r) "private-orders" "A" = alive initial "private-orders" "A"
  ∧ store (final r) = store initial
  ∧ Forall (λ e, is_room_join e = false ∧ is_store_access e = false) (trace r).
Proof.
  apply (denied_join_changes_nothing server "A" "private-orders"
           (join_request "private-orders") {| reason := "Forbidden"; status := 403 |});
    [reflexivity | discriminate | reflexivity | reflexivity].
Defined.

(** C4, as stated, fails: with the backend answering 403 "Forbidden", the
    one event sent to the requester carries the channel and the status, and
    nothing that is emitted carries the reason. *)
Lemma denied_join_reason_not_sent :
  let r := run (join server "A" (join_request "private-orders")) initial in
  authenticate (private server) "A" (join_request "private-orders")
    = inr {| reason := "Forbidden"; status := 403 |}
  ∧ trace r = [Authenticate "A" "private-orders";
               EmitTo "A" "subscription_error" [Str "private-orders"; Num 403]]
  ∧ ¬ ∃ e, In e (trace r) ∧ carries (Str "Forbidden") e.
Proof.
  cbv zeta. split; [reflexivity|]. split; [reflexivity|].
  intros (e & Hin & Hc). cbn in Hin.
  destruct Hin as [<-|[<-|[]]]; cbn in Hc; [exact Hc|].
  destruct Hc as [H|[H|[]]]; discriminate H.
Qed.

(** C4, amended. When the backend denies a private-channel join, exactly
    one event is emitted: [subscription_error], sent to the room named by
    the requester's connection id, with the channel name and the status of
    the denial as its arguments.  The reason is not part of it (it goes to
    the log in dev mode).  Where that room holds the requester alone, as
    socket.io arranges, nobody else receives the event. *)
Theorem denied_join_emits_status (this : Channel) (sid channel : string)
    (data : JoinData) (error : AuthError) (st : State) :
  data_channel data = Some channel → channel ≠ "" → isPrivate channel = true →
  authenticate (private this) sid data = inr error →
  let r := run (join this sid data) st in
  let e := EmitTo sid "subscription_error" [Str channel; Num (status error)] in
  List.filter is_emission (trace r) = [e]
  ∧ carries (Str channel) e ∧ carries (Num (status error)) e
  ∧ (∀ id, receives (final r) e id = alive st sid id)
  ∧ ((∀ id, alive st sid id = true ↔ id = sid) →
     ∀ id, receives (final r) e id = true ↔ id = sid)
  ∧ (devMode (options this) = true → In (Log LError (reason error)) (trace r)).
Proof.
  intros Hch Hne Hpriv Hden r e. subst r e.
  rewrite (join_denied_run this sid channel data error st Hch Hne Hpriv Hden).
  unfold final, trace. cbn [fst snd].
  split; [destruct (devMode (options this)); reflexivity|].
  split; [left; reflexivity|]. split; [right; left; reflexivity|].
  split; [reflexivity|]. split; [intros H id; apply H|].
  intros ->. right. left. reflexivity.
Qed.

Lemma denied_join_emits_status_witness :
  List.filter is_emission (trace (run (join server "A" (join_request "private-orders")) initial))
  = [EmitTo "A" "subscription_error" [Str "private-orders"; Num 403]].
Proof.
  pose proof (denied_join_emits_status server "A" "private-orders"
                (join_request "private-orders") {| reason := "Forbidden"; status := 403 |}
                initial eq_refl) as H.
  cbv zeta in H.
  destruct H as [H _]; [discriminate | reflexivity | reflexivity | exact H].
Defined.

(** ** Client events *)

Lemma clientEvent_object_run (this : Channel) (sid : string) (payload : ClientPayload)
    (d : EventData) (event channel : string) (st : State) :
  decoded this payload = DObject d →
  ev_event d = Some event → ev_channel d = Some channel →
  run (clientEvent this sid payload) st =
    (Done (), st,
     if isClientEvent event && isPrivate channel && isInChannel st sid channel
     then [Broadcast sid channel event [Str channel; ev_data d]] else []).
Proof.
  intros Hd He Hc. unfold clientEvent. rewrite Hd, He, Hc.
  destruct (isClientEvent event) eqn:Hce; cycle 1.
  { exec. destruct (truthy event && truthy channel); reflexivity. }
  destruct (isPrivate channel) eqn:Hp; cycle 1.
  { exec. destruct (truthy event && truthy channel); reflexivity. }
  rewrite (isClientEvent_truthy _ Hce), (isPrivate_truthy _ Hp).
  exec. cbn. destruct (isInChannel st sid channel); reflexivity.
Qed.


(** A private-style name is none of the inherited property names, so for
    it [isInChannel] is room membership. *)
Lemma isPrivate_not_inherited (name : string) : isPrivate name = true → inherited name = false.
Proof.
  intros Hp. unfold inherited. apply bool_decide_eq_false. intros Hin.
  unfold inherited_names in Hin.
  repeat (apply elem_of_cons in Hin as [->|Hin]; [vm_compute in Hp; discriminate Hp|]).
  inversion Hin.
Qed.

Lemma isInChannel_joined (st : State) (sid channel : string) :
  channel ≠ "" → alive st channel sid = true → isInChannel st sid channel = true.
Proof.
  intros Hne Hin. unfold isInChannel. apply truthy_true in Hne. now rewrite Hin, Hne.
Qed.

Lemma isInChannel_out (st : State) (sid channel : string) :
  alive st channel sid = false → isInChannel st sid channel = inherited channel.
Proof. intros Hout. unfold isInChannel. now rewrite Hout. Qed.

Lemma isInChannel_private (st : State) (sid channel : string) :
  isPrivate channel = true → isInChannel st sid channel = alive st channel sid.
Proof.
  intros Hp. unfold isInChannel.
  rewrite (isPrivate_not_inherited _ Hp), (isPrivate_truthy _ Hp).
  now rewrite andb_true_r, orb_false_r.
Qed.

(** C6. The claim fails on the code: the patterns ['client-*'] and
    ['private-*'] are tested unanchored.  Connection [A], granted the
    channel [xprivate-foo] and in its room with [B], sends the event
    [my-client-typing]; neither name begins with the prefix its pattern
    asks for, and yet the event is rebroadcast and [B] receives it. *)
Theorem client_event_patterns_not_anchored :
  let this := channel_with quiet (granting None) in
  let joined :=
    final (run (join this "A" (join_request "xprivate-foo") ;;
                join this "B" (join_request "xprivate-foo")) initial) in
  let payload := Object {| ev_event := Some "my-client-typing";
                           ev_channel := Some "xprivate-foo";
                           ev_data := Str "hello" |} in
  let e := Broadcast "A" "xprivate-foo" "my-client-typing"
             [Str "xprivate-foo"; Str "hello"] in
  String.prefix "client-" "my-client-typing" = false
  ∧ String.prefix "private-" "xprivate-foo" = false
  ∧ String.prefix "presence-" "xprivate-foo" = false
  ∧ isClientEvent "my-client-typing" = true
  ∧ isPrivate "xprivate-foo" = true
  ∧ run (clientEvent this "A" payload) joined = (Done (), joined, [e])
  ∧ receives joined e "B" = true.
Proof. cbv zeta. repeat split; vm_compute; reflexivity. Qed.

(** ** Joining a public channel *)

Lemma run_bind {A B : Type} (m : M A) (f : A → M B) (st : State) :
  run (m ≫= f) st =
    match run m st with
    | (Done a, st1, t1) =>
        match run (f a) st1 with
        | (r, st2, t2) => (r, st2, t1 ++ t2)
        end
    | (Thrown e, st1, t1) => (Thrown e, st1, t1)
    end.
Proof. reflexivity. Qed.

Lemma onJoin_run (this : Channel) (sid channel : string) (st : State) :
  run (onJoin this sid channel) st =
    (Done (),
     set_userIds (λ u, match match_user channel with
                       | Some digits => if truthy digits then <[sid:=digits]> u else u
                       | None => u
                       end) st,
     if devMode (options this)
     then [Log LInfo (sid +:+ " joined channel: " +:+ channel)] else []).
Proof.
  exec. destruct st as [s e r u c]. unfold set_userIds. cbn.
  destruct (match_user channel) as [digits|]; [destruct (truthy digits)|];
    destruct (devMode (options this)); reflexivity.
Qed.

Lemma onJoin_userId (this : Channel) (sid channel : string) (st : State) :
  userIds (final (run (onJoin this sid channel) st)) !! sid
  = userId_after channel (userIds st !! sid).
Proof.
  rewrite onJoin_run. unfold final, userId_after. cbn.
  destruct (match_user channel) as [digits|]; [destruct (truthy digits)|];
    try reflexivity.
  apply lookup_insert_eq.
Qed.

Lemma onJoin_frame (this : Channel) (sid channel : string) (st : State) :
  let st' := final (run (onJoin this sid channel) st) in
  store st' = store st ∧ store_error st' = store_error st ∧ rooms st' = rooms st
  ∧ cookies st' = cookies st
  ∧ ∀ other, other ≠ sid → userIds st' !! other = userIds st !! other.
Proof.
  cbv zeta. rewrite onJoin_run. unfold final. cbn.
  repeat split; try reflexivity.
  intros other Hne.
  destruct (match_user channel) as [digits|]; [destruct (truthy digits)|];
    try reflexivity.
  apply lookup_insert_ne. congruence.
Qed.

(** The run of a join to a channel that is not private-style. *)
Lemma join_public_run (this : Channel) (sid channel : string) (data : JoinData) (st : State) :
  data_channel data = Some channel → channel ≠ "" → isPrivate channel = false →
  let st1 := set_rooms (λ r, {[ (channel, sid) ]} ∪ r)
               (final (run (onJoin this sid channel) st)) in
  let sync := trace (run (onJoin this sid channel) st) ++ [SocketJoin sid channel] in
  run (join this sid data) st =
    match userId_after channel (userIds st !! sid) with
    | Some u =>
        if truthy u then
          match store_error st with
          | Some e => (Done (), st1, sync ++ [DbGet (members_key channel); Log LError e])
          | None =>
              match persisted_members st channel with
              | Some l =>
                  let new := filter (λ m, alive st1 channel (socketId m) = true
                                          ∧ userId m ≠ u) l
                             ++ [{| userId := u; socketId := sid |}] in
                  (Done (),
                   set_store (insert (count_key channel) (VNumber (length new)))
                     (set_store (insert (members_key channel) (VMembers new)) st1),
                   sync ++ [DbGet (members_key channel); Clients channel;
                            DbSet (members_key channel) (VMembers new);
                            DbSet (count_key channel) (VNumber (length new))])
              | None =>
                  (Thrown "TypeError: list.filter is not a function", st1,
                   sync ++ [DbGet (members_key channel); Clients channel])
              end
          end
        else (Done (), st1, sync)
    | None => (Done (), st1, sync)
    end.
Proof.
  intros Hch Hne Hpub st1 sync. apply truthy_true in Hne.
  pose proof (onJoin_userId this sid channel st) as Hid.
  pose proof (onJoin_frame this sid channel st) as (Hst & Herr & _).
  unfold join. rewrite Hch, Hne, Hpub. rewrite run_bind.
  subst sync st1. revert Hid Hst Herr. rewrite !onJoin_run.
  unfold final, trace. cbn [fst snd].
  set (st0 := set_userIds _ st). intros Hid Hst Herr.
  unfold persisted_members. rewrite <- Hid, <- Hst, <- Herr. clearbody st0.
  exec. cbn.
  destruct (userIds st0 !! sid) as [u|] eqn:Hu; cbn; [|reflexivity].
  destruct (truthy u); cbn; [|reflexivity].
  destruct (store_error st0) as [e|] eqn:He; cbn;
    [rewrite <- ?app_assoc; reflexivity|].
  unfold members_key, count_key.
  destruct (as_list (store st0 !! (channel +:+ ":members"))) as [l|]; cbn;
    rewrite ?Hu; cbn; rewrite ?He; cbn; rewrite ?He; cbn;
    rewrite <- ?app_assoc; reflexivity.
Qed.

(** C1. A join to a channel that is not private-style, by a connection
    that carries a userId, run without interleaving on a store that answers:
    with [S] the member list on record, [L] the connections in the channel's
    room when it is asked (the joining one among them) and [m] the joining
    member, the list persisted is [S] filtered to the entries whose socketId
    is in [L] and whose userId is not [m]'s, followed by [m]; and the
    members-count key holds the length of that list. *)
Theorem join_persists_reconciled (this : Channel) (sid channel u : string)
    (data : JoinData) (S : list Member) (st : State) :
  data_channel data = Some channel → channel ≠ "" → isPrivate channel = false →
  store_error st = None →
  persisted_members st channel = Some S →
  userIds (final (run (onJoin this sid channel) st)) !! sid = Some u → u ≠ "" →
  let r := run (join this sid data) st in
  let m := {| userId := u; socketId := sid |} in
  let L id := alive (final r) channel id in
  let new := filter (λ e, L (socketId e) = true ∧ userId e ≠ userId m) S ++ [m] in
  outcome r = Done ()
  ∧ store (final r) !! members_key channel = Some (VMembers new)
  ∧ store (final r) !! count_key channel = Some (VNumber (length new))
  ∧ (∀ id, L id = true ↔ id = sid ∨ alive st channel id = true)
  ∧ userIds (final r) !! sid = Some u.
Proof.
  intros Hch Hne Hpub Hok HS Hu Hune r m L new.
  pose proof Hu as Hid. rewrite onJoin_userId in Hu.
  pose proof (onJoin_frame this sid channel st) as (_ & _ & Hrooms & _).
  subst new L m r. apply truthy_true in Hune.
  rewrite (join_public_run this sid channel data st Hch Hne Hpub), Hu, Hune, Hok, HS.
  unfold outcome, final. cbn.
  split; [reflexivity|].
  split; [rewrite lookup_insert_ne by (symmetry; apply members_key_not_count);
          apply lookup_insert_eq|].
  split; [apply lookup_insert_eq|].
  split; [|exact Hid].
  intros id. unfold alive. cbn. rewrite !bool_decide_eq_true.
  unfold final in Hrooms. rewrite Hrooms, elem_of_union, elem_of_singleton.
  split.
  - intros [H|H]; [left; congruence|right; exact H].
  - intros [->|H]; [left; reflexivity|right; exact H].
Qed.

Lemma join_persists_reconciled_witness :
  let r := run (join server "A" (join_request "lobby")) busy in
  store (final r) !! members_key "lobby"
    = Some (VMembers [ {| userId := "5"; socketId := "B" |};
                       {| userId := "9"; socketId := "A" |} ])
  ∧ store (final r) !! count_key "lobby" = Some (VNumber 2).
Proof.
  pose proof (join_persists_reconciled server "A" "lobby" "9" (join_request "lobby")
                [ {| userId := "5"; socketId := "B" |};
                  {| userId := "7"; socketId := "C" |};
                  {| userId := "9"; socketId := "A0" |} ] busy
                eq_refl) as H.
  cbv zeta in H.
  destruct H as (_ & Hm & Hc & _);
    [discriminate | reflexivity | reflexivity | reflexivity | reflexivity | discriminate |].
  split.
  - rewrite Hm. vm_compute. reflexivity.
  - rewrite Hc. vm_compute. reflexivity.
Defined.

(** ** Leaving a channel *)

Lemma sendHook_run (this : Channel) (sid channel event : string) (st : State) :
  ∃ req logs,
    run (sendHook this sid channel event) st = (Done (), st, HttpPost req :: logs)
    ∧ Forall (λ e, is_log e = true) logs.
Proof.
  unfold sendHook. rewrite run_bind. unfold prepareHookHeaders at 1.
  unfold run at 1, gets at 1.
  set (req := {| url := _ |}). exists req.
  destruct (request_post this req) as [err|code body]; [|destruct (code =? 200)%Z];
    destruct (devMode (options this)); eexists; (split; [exec; reflexivity|]);
    repeat constructor.
Qed.

Lemma leave_hook_run (this : Channel) (sid channel : string) (st : State) :
  run (when (hook_configured (options this)) (sendHook this sid channel "leave")) st
  = (Done (), st, leave_hook_effects this sid channel st)
  ∧ List.filter is_store_access (leave_hook_effects this sid channel st) = []
  ∧ List.existsb is_hook (leave_hook_effects this sid channel st)
    = hook_configured (options this).
Proof.
  unfold leave_hook_effects. destruct (hook_configured (options this)); cbn [when].
  - destruct (sendHook_run this sid channel "leave" st) as (req & logs & -> & Hlogs).
    unfold trace. cbn [snd List.filter is_store_access List.existsb is_hook orb].
    split; [reflexivity|]. split; [|reflexivity].
    induction Hlogs as [|e logs He _ IH]; [reflexivity|].
    cbn. destruct e; try discriminate He. exact IH.
  - repeat split; reflexivity.
Qed.

(** The run of a leave from a channel that is not a presence channel. *)
Lemma leave_run (this : Channel) (sid channel reason : string) (st : State) :
  channel ≠ "" → isPresence channel = false →
  let st1 := set_rooms (λ r, r ∖ {[ (channel, sid) ]}) st in
  let sync :=
    [DbGet (members_key channel); SocketLeave sid channel]
    ++ leave_hook_effects this sid channel st1
    ++ (if devMode (options this)
        then [Log LInfo (sid +:+ " left channel: " +:+ channel +:+ " (" +:+ reason +:+ ")")]
        else []) in
  run (leave this sid channel reason) st =
    match store_error st with
    | Some e => (Done (), st1, sync ++ [Log LError e])
    | None =>
        match persisted_members st channel with
        | Some l =>
            let kept := filter (λ m, socketId m ≠ sid) l in
            (Done (),
             set_store (insert (count_key channel) (VNumber (length kept)))
               (set_store (insert (members_key channel) (VMembers kept)) st1),
             sync ++ [DbSet (members_key channel) (VMembers kept);
                      DbSet (count_key channel) (VNumber (length kept))])
        | None => (Thrown "TypeError: members.find is not a function", st1, sync)
        end
    end.
Proof.
  intros Hne Hpres st1 sync. apply truthy_true in Hne.
  unfold leave. rewrite Hne, Hpres.
  pose proof (leave_hook_run this sid channel st1) as (Hhook & _).
  unfold hook_configured in Hhook.
  rewrite run_bind. unfold getMembers at 1. rewrite run_bind.
  unfold persisted_members, members_key, count_key in *. subst sync.
  destruct (store_error st) as [e|] eqn:Herr.
  - unfold run at 1, db_get at 1. rewrite Herr. unfold run at 1, mret at 1, M_ret at 1.
    rewrite run_bind. unfold run at 1, socket_leave.
    unfold mbind at 1, M_bind at 1, tell at 1, modify at 1. cbn [fst snd app].
    fold st1. rewrite run_bind, Hhook, run_bind.
    destruct (devMode (options this)); exec; cbn; rewrite ?app_nil_r, <- ?app_assoc;
      reflexivity.
  - unfold run at 1, db_get at 1. rewrite Herr. unfold run at 1, mret at 1, M_ret at 1.
    rewrite run_bind. unfold run at 1, socket_leave.
    unfold mbind at 1, M_bind at 1, tell at 1, modify at 1. cbn [fst snd app].
    fold st1. rewrite run_bind, Hhook, run_bind.
    destruct (as_list (store st !! (channel +:+ ":members"))) as [S|] eqn:HS.
    + destruct (devMode (options this)); exec; cbn; rewrite HS; cbn; rewrite Herr; cbn;
        rewrite ?Herr; cbn; rewrite ?app_nil_r, <- ?app_assoc; reflexivity.
    + destruct (devMode (options this)); exec; cbn; rewrite HS; cbn;
        rewrite ?app_nil_r, <- ?app_assoc; reflexivity.
Qed.

(** C2, as stated, fails: leaving the public channel [lobby] reads its
    members key and writes both of its keys. *)
Lemma leave_public_touches_store :
  let r := run (leave server "A" "lobby" "transport close") initial in
  isPresence "lobby" = false
  ∧ trace r = [DbGet "lobby:members"; SocketLeave "A" "lobby";
               DbSet "lobby:members" (VMembers []);
               DbSet "lobby:members-count" (VNumber 0)]
  ∧ List.existsb is_store_access (trace r) = true
  ∧ store initial !! "lobby:members-count" = None
  ∧ store (final r) !! "lobby:members-count" = Some (VNumber 0).
Proof. cbv zeta. repeat split; vm_compute; reflexivity. Qed.

(** C2, amended. When a connection leaves a channel that is not a presence
    channel, the coordinator drops the room registration, notifies the
    webhook if one is configured, and also reads [<channel>:members], once.
    When the store answers and the value read is a member list (an absent
    key counting as the empty list) it writes the list back without the
    entries of the leaving connection and sets [<channel>:members-count] to
    the length of what it wrote.  When the store rejects the read it logs
    the error and writes nothing; when the value on record is no list the
    callback fails before it writes.  It makes no other access to the
    store. *)
Theorem leave_reconciles_members (this : Channel) (sid channel reason : string) (st : State) :
  channel ≠ "" → isPresence channel = false →
  let r := run (leave this sid channel reason) st in
  let answer :=
    match store_error st with
    | None => persisted_members st channel
    | Some _ => None
    end in
  let kept := filter (λ m, socketId m ≠ sid) (default [] answer) in
  List.filter is_store_access (trace r)
  = DbGet (members_key channel)
    :: match answer with
       | Some _ => [DbSet (members_key channel) (VMembers kept);
                    DbSet (count_key channel) (VNumber (length kept))]
       | None => []
       end
  ∧ store (final r)
    = match answer with
      | Some _ => <[count_key channel := VNumber (length kept)]>
                    (<[members_key channel := VMembers kept]> (store st))
      | None => store st
      end
  ∧ (∀ e, store_error st = Some e →
       outcome r = Done () ∧ In (Log LError e) (trace r))
  ∧ (store_error st = None →
       (outcome r = Done () ↔ is_Some (persisted_members st channel)))
  ∧ rooms (final r) = rooms st ∖ {[ (channel, sid) ]}
  ∧ In (SocketLeave sid channel) (trace r)
  ∧ List.existsb is_hook (trace r) = hook_configured (options this).
Proof.
  intros Hne Hpres r answer kept. subst r kept answer.
  rewrite (leave_run this sid channel reason st Hne Hpres).
  pose proof (leave_hook_run this sid channel
                (set_rooms (λ r, r ∖ {[ (channel, sid) ]}) st)) as (_ & Hacc & Hhook).
  assert (Hsync : ∀ tail,
    List.filter is_store_access
      (([DbGet (members_key channel); SocketLeave sid channel]
        ++ leave_hook_effects this sid channel (set_rooms (λ r, r ∖ {[ (channel, sid) ]}) st)
        ++ (if devMode (options this)
            then [Log LInfo (sid +:+ " left channel: " +:+ channel +:+ " (" +:+ reason +:+ ")")]
            else [])) ++ tail)
    = DbGet (members_key channel) :: List.filter is_store_access tail).
  { intros tail. rewrite !List.filter_app, Hacc. cbn.
    destruct (devMode (options this)); reflexivity. }
  assert (Hhooks : ∀ tail,
    List.existsb is_hook
      (([DbGet (members_key channel); SocketLeave sid channel]
        ++ leave_hook_effects this sid channel (set_rooms (λ r, r ∖ {[ (channel, sid) ]}) st)
        ++ (if devMode (options this)
            then [Log LInfo (sid +:+ " left channel: " +:+ channel +:+ " (" +:+ reason +:+ ")")]
            else [])) ++ tail)
    = hook_configured (options this) || List.existsb is_hook tail).
  { intros tail. rewrite !existsb_app, Hhook. cbn.
    destruct (devMode (options this)); cbn; now rewrite ?orb_false_r. }
  cbv zeta.
  destruct (store_error st) as [e|] eqn:Herr.
  - unfold outcome, final, trace. cbn [fst snd default].
    split; [now rewrite Hsync|]. split; [reflexivity|].
    split. { intros e' [= <-]. split; [reflexivity|]. apply in_or_app. right. now left. }
    split; [discriminate|]. split; [reflexivity|].
    split; [rewrite <- !app_assoc; right; left; reflexivity|].
    rewrite Hhooks. cbn. now rewrite orb_false_r.
  - destruct (persisted_members st channel) as [l|] eqn:HS.
    + unfold outcome, final, trace. cbn [fst snd default].
      split; [now rewrite Hsync|]. split; [reflexivity|].
      split; [discriminate|]. split; [intros _; split; eauto|].
      split; [reflexivity|].
      split; [rewrite <- !app_assoc; right; left; reflexivity|].
      rewrite Hhooks. cbn. now rewrite orb_false_r.
    + unfold outcome, final, trace. cbn [fst snd default].
      split; [rewrite <- (app_nil_r (_ ++ _ ++ _)), Hsync; reflexivity|].
      split; [reflexivity|].
      split; [discriminate|].
      split. { intros _. split; [discriminate|]. intros [? [=]]. }
      split; [reflexivity|].
      split; [right; left; reflexivity|].
      rewrite <- (app_nil_r (_ ++ _ ++ _)), Hhooks. cbn. now rewrite orb_false_r.
Qed.

Lemma leave_reconciles_members_witness :
  let r := run (leave server "B" "lobby" "transport close") busy in
  List.filter is_store_access (trace r)
  = [DbGet "lobby:members";
     DbSet "lobby:members" (VMembers [ {| userId := "7"; socketId := "C" |};
                                       {| userId := "9"; socketId := "A0" |} ]);
     DbSet "lobby:members-count" (VNumber 2)].
Proof.
  pose proof (leave_reconciles_members server "B" "lobby" "transport close" busy) as H.
  cbv zeta in H.
  destruct H as (Hacc & _); [discriminate | reflexivity |].
  cbv zeta. rewrite Hacc. reflexivity.
Defined.

(** C9, as stated, fails: the leave of a connection that never joined
    writes both keys.  On an empty store it creates them; on a store whose
    count is out of step with the list it resets the count, although the
    list holds no entry of the leaving connection. *)
Lemma leave_without_entry_writes_keys :
  let fresh := run (leave server "A" "lobby" "transport close") initial in
  let skewed := set_store (insert "lobby:members-count" (VNumber 7)) busy in
  let r := run (leave server "Z" "lobby" "transport close") skewed in
  persisted_members initial "lobby" = Some []
  ∧ store initial !! "lobby:members" = None
  ∧ store initial !! "lobby:members-count" = None
  ∧ store (final fresh) !! "lobby:members" = Some (VMembers [])
  ∧ store (final fresh) !! "lobby:members-count" = Some (VNumber 0)
  ∧ (socketId <$> default [] (persisted_members skewed "lobby")) = ["B"; "C"; "A0"]
  ∧ store skewed !! "lobby:members-count" = Some (VNumber 7)
  ∧ store (final r) !! "lobby:members-count" = Some (VNumber 3).
Proof. cbv zeta. repeat split; vm_compute; reflexivity. Qed.

(** C9, amended. Leaving a channel (not a presence channel) whose member
    list on record has no entry of the leaving connection does not fail,
    and the list reads back as before (an absent key reading as the empty
    list).  It is no no-op on the store, though: when the store answers,
    both keys are written, [<channel>:members] with that same list and
    [<channel>:members-count] with its length, so that the store is as it
    was only where both keys were there and in step; when the store rejects
    the read, nothing is written.  Every other key, every userId and every
    other room membership stay as they were, and the connection is taken
    out of the room, which changes nothing if it was not in it. *)
Theorem leave_without_entry_rewrites (this : Channel) (sid channel reason : string)
    (S : list Member) (st : State) :
  channel ≠ "" → isPresence channel = false →
  persisted_members st channel = Some S →
  (∀ m, m ∈ S → socketId m ≠ sid) →
  let r := run (leave this sid channel reason) st in
  outcome r = Done ()
  ∧ persisted_members (final r) channel = Some S
  ∧ (store_error st = None →
     store (final r)
     = <[count_key channel := VNumber (length S)]>
         (<[members_key channel := VMembers S]> (store st)))
  ∧ (store_error st ≠ None → store (final r) = store st)
  ∧ (store st !! members_key channel = Some (VMembers S) →
     store st !! count_key channel = Some (VNumber (length S)) →
     store (final r) = store st)
  ∧ (∀ key, key ≠ members_key channel → key ≠ count_key channel →
     store (final r) !! key = store st !! key)
  ∧ rooms (final r) = rooms st ∖ {[ (channel, sid) ]}
  ∧ (alive st channel sid = false → rooms (final r) = rooms st)
  ∧ userIds (final r) = userIds st.
Proof.
  intros Hne Hpres HS Hnone r. subst r.
  assert (Hkept : filter (λ m, socketId m ≠ sid) S = S).
  { clear HS. induction S as [|m S IH]; [reflexivity|].
    rewrite filter_cons_True by (apply Hnone; left).
    f_equal. apply IH. intros m' Hm'. apply Hnone. now right. }
  assert (Hrooms : alive st channel sid = false →
                   rooms st ∖ {[ (channel, sid) ]} = rooms st).
  { unfold alive. rewrite bool_decide_eq_false. intros Hout.
    apply difference_disjoint_L. intros x Hx Hx'.
    apply elem_of_singleton in Hx'. congruence. }
  rewrite (leave_run this sid channel reason st Hne Hpres).
  destruct (store_error st) as [e|] eqn:Herr.
  - cbv zeta. unfold outcome, final, persisted_members in *. cbn.
    split; [reflexivity|]. split; [exact HS|]. split; [discriminate|].
    split; [reflexivity|]. split; [reflexivity|]. split; [reflexivity|].
    split; [reflexivity|]. split; [exact Hrooms|reflexivity].
  - rewrite HS. cbv zeta. rewrite Hkept.
    unfold outcome, final, persisted_members. cbn.
    split; [reflexivity|].
    split.
    { rewrite lookup_insert_ne by (symmetry; apply members_key_not_count).
      now rewrite lookup_insert_eq. }
    split; [reflexivity|].
    split; [intros Hno; now destruct Hno|].
    split.
    { intros Hm Hc. rewrite (insert_id _ _ _ Hm). apply insert_id, Hc. }
    split.
    { intros key Hk1 Hk2. now rewrite !lookup_insert_ne by congruence. }
    split; [reflexivity|]. split; [exact Hrooms|reflexivity].
Qed.

Lemma leave_without_entry_rewrites_witness :
  let r := run (leave server "Z" "lobby" "transport close") busy in
  outcome r = Done () ∧ store (final r) = store busy ∧ rooms (final r) = rooms busy.
Proof.
  pose proof (leave_without_entry_rewrites server "Z" "lobby" "transport close"
                [ {| userId := "5"; socketId := "B" |};
                  {| userId := "7"; socketId := "C" |};
                  {| userId := "9"; socketId := "A0" |} ] busy) as H.
  cbv zeta in H.
  destruct H as (Hdone & _ & _ & _ & Hstore & _ & _ & Hrooms & _).
  - discriminate.
  - reflexivity.
  - reflexivity.
  - intros m Hm. repeat (apply elem_of_cons in Hm as [->|Hm]; [discriminate|]).
    inversion Hm.
  - split; [exact Hdone|]. split; [apply Hstore; reflexivity|apply Hrooms; reflexivity].
Defined.

(** ** Uniqueness of the members on record *)

Lemma NoDup_fmap_filter {A B : Type} (f : A → B) (P : A → Prop)
    `{∀ x, Decision (P x)} (l : list A) :
  NoDup (f <$> l) → NoDup (f <$> filter P l).
Proof.
  induction l as [|x l IH]; [intros _; constructor|].
  rewrite fmap_cons, NoDup_cons. intros [Hx Hl].
  destruct (decide (P x)) as [HP|HP].
  - rewrite filter_cons_True by exact HP. rewrite fmap_cons, NoDup_cons.
    split; [|apply IH, Hl].
    intros Hin. apply Hx. apply list_elem_of_fmap in Hin as (y & Hy & Hin).
    apply list_elem_of_filter in Hin as [_ Hin].
    apply list_elem_of_fmap. eauto.
  - rewrite filter_cons_False by exact HP. apply IH, Hl.
Qed.

(** Appending the joining member keeps users unique: the filter has removed
    every entry of that user. *)
Lemma join_list_unique_users (Q : Member → Prop) `{∀ m, Decision (Q m)}
    (u sid : string) (l : list Member) :
  unique_users l →
  unique_users (filter (λ m, Q m ∧ userId m ≠ u) l ++ [{| userId := u; socketId := sid |}]).
Proof.
  unfold unique_users. intros Hl. rewrite fmap_app. apply NoDup_app.
  split; [apply NoDup_fmap_filter, Hl|]. split; [|apply NoDup_singleton].
  intros x Hx Hx'. apply list_elem_of_singleton in Hx'. cbn in Hx'. subst x.
  apply list_elem_of_fmap in Hx as (m & Hm & Hin).
  apply list_elem_of_filter in Hin as [[_ Hne] _]. congruence.
Qed.

(** It keeps connections unique as long as no entry on record belongs to the
    joining connection under another user. *)
Lemma join_list_unique_sockets (Q : Member → Prop) `{∀ m, Decision (Q m)}
    (u sid : string) (l : list Member) :
  unique_sockets l →
  (∀ m, m ∈ l → socketId m = sid → userId m = u) →
  unique_sockets (filter (λ m, Q m ∧ userId m ≠ u) l ++ [{| userId := u; socketId := sid |}]).
Proof.
  unfold unique_sockets. intros Hl Hown. rewrite fmap_app. apply NoDup_app.
  split; [apply NoDup_fmap_filter, Hl|]. split; [|apply NoDup_singleton].
  intros x Hx Hx'. apply list_elem_of_singleton in Hx'. cbn in Hx'. subst x.
  apply list_elem_of_fmap in Hx as (m & Hm & Hin).
  apply list_elem_of_filter in Hin as [[_ Hne] Hin].
  apply Hne, Hown; [exact Hin|congruence].
Qed.

Lemma joinPrivate_store (this : Channel) (sid channel : string) (data : JoinData) (st : State) :
  isPresence channel = false →
  store (final (run (joinPrivate this sid data channel) st)) = store st.
Proof.
  intros Hpres. unfold joinPrivate. rewrite run_bind. unfold run at 1, tell at 1.
  destruct (authenticate (private this) sid data) as [res|error].
  - rewrite Hpres. rewrite run_bind. unfold run at 1, socket_join.
    unfold mbind at 1, M_bind at 1, tell at 1, modify at 1. cbn [fst snd app].
    rewrite run_bind. unfold run at 1, when at 1, mret at 1, M_ret at 1.
    rewrite onJoin_run. reflexivity.
  - destruct (devMode (options this)); reflexivity.
Qed.

(** What a join does to the store, outside presence channels: nothing, or the
    reconciled list and its length under the two keys of the channel. *)
Lemma join_store (this : Channel) (sid channel : string) (data : JoinData) (st : State) :
  data_channel data = Some channel → isPresence channel = false →
  store (final (run (join this sid data) st)) = store st
  ∨ ∃ (Q : Member → Prop) (_ : ∀ m, Decision (Q m)) (l : list Member) (u : string),
      persisted_members st channel = Some l
      ∧ userId_after channel (userIds st !! sid) = Some u
      ∧ let new := filter (λ m, Q m ∧ userId m ≠ u) l ++ [{| userId := u; socketId := sid |}] in
        store (final (run (join this sid data) st))
        = <[count_key channel := VNumber (length new)]>
            (<[members_key channel := VMembers new]> (store st)).
Proof.
  intros Hch Hpres.
  destruct (truthy channel) eqn:Hne; cycle 1.
  { left. unfold join. now rewrite Hch, Hne. }
  destruct (isPrivate channel) eqn:Hpriv.
  { left. unfold join. rewrite Hch, Hne, Hpriv. apply joinPrivate_store, Hpres. }
  apply truthy_true in Hne.
  rewrite (join_public_run this sid channel data st Hch Hne Hpriv).
  pose proof (onJoin_frame this sid channel st) as (Hst & _).
  destruct (userId_after channel (userIds st !! sid)) as [u|] eqn:Hu;
    [|left; exact Hst].
  destruct (truthy u); [|left; exact Hst].
  destruct (store_error st); [left; exact Hst|].
  destruct (persisted_members st channel) as [l|] eqn:Hl; [|left; exact Hst].
  right. eexists _, _, l, u. split; [reflexivity|]. split; [reflexivity|].
  cbv zeta. unfold final. cbn. unfold final in Hst. rewrite Hst. reflexivity.
Qed.

Lemma leave_store (this : Channel) (sid channel reason : string) (st : State) :
  isPresence channel = false →
  store (final (run (leave this sid channel reason) st)) = store st
  ∨ ∃ l, persisted_members st channel = Some l
      ∧ let kept := filter (λ m, socketId m ≠ sid) l in
        store (final (run (leave this sid channel reason) st))
        = <[count_key channel := VNumber (length kept)]>
            (<[members_key channel := VMembers kept]> (store st)).
Proof.
  intros Hpres.
  destruct (truthy channel) eqn:Hne; cycle 1.
  { left. unfold leave. now rewrite Hne. }
  apply truthy_true in Hne.
  rewrite (leave_run this sid channel reason st Hne Hpres).
  destruct (store_error st); [left; reflexivity|].
  destruct (persisted_members st channel) as [l|] eqn:Hl; [|left; reflexivity].
  right. exists l. split; reflexivity.
Qed.

(** A property of member lists survives a write of the two keys of
    [channel] when the list written has it. *)
Lemma members_satisfy_write (P : list Member → Prop) (st st' : State)
    (channel c : string) (new : list Member) (n : nat) :
  store st' = <[count_key channel := VNumber n]>
                (<[members_key channel := VMembers new]> (store st)) →
  P new → members_satisfy P st c → members_satisfy P st' c.
Proof.
  intros Hst Hnew Hc l. rewrite Hst.
  rewrite lookup_insert_ne by (intros E; symmetry in E; revert E; apply members_key_not_count).
  destruct (decide (c = channel)) as [->|Hne].
  - rewrite lookup_insert_eq. intros [= <-]. exact Hnew.
  - rewrite lookup_insert_ne by (intros E; apply members_key_inj in E; congruence).
    apply Hc.
Qed.

Lemma members_satisfy_same (P : list Member → Prop) (st st' : State) (c : string) :
  store st' = store st → members_satisfy P st c → members_satisfy P st' c.
Proof. intros Hst Hc l. rewrite Hst. apply Hc. Qed.

Lemma persisted_members_satisfy (P : list Member → Prop) (st : State) (channel : string)
    (l : list Member) :
  P [] → members_satisfy P st channel → persisted_members st channel = Some l → P l.
Proof.
  intros Hnil Hc. unfold persisted_members, as_list.
  destruct (store st !! members_key channel) as [[l'|[|n]]|] eqn:Hs; try discriminate.
  - intros [= <-]. apply Hc, Hs.
  - intros [= <-]. exact Hnil.
  - intros [= <-]. exact Hnil.
Qed.

(** C7, as stated, fails: a connection whose userId changed between two
    joins of the same channel ends up on record twice.  Connection [A] joins
    [user.5], [lobby], [user.7], and [lobby] again: the list of [lobby],
    unique by connection before the last join, holds two entries of [A]
    after it. *)
Lemma rejoin_duplicates_connection :
  let before := final (run (sequence_ [ join server "A" (join_request "user.5");
                                        join server "A" (join_request "lobby");
                                        join server "A" (join_request "user.7") ]) initial) in
  let after := final (run (join server "A" (join_request "lobby")) before) in
  store before !! members_key "lobby"
    = Some (VMembers [ {| userId := "5"; socketId := "A" |} ])
  ∧ unique_sockets [ {| userId := "5"; socketId := "A" |} ]
  ∧ store after !! members_key "lobby"
    = Some (VMembers [ {| userId := "5"; socketId := "A" |};
                       {| userId := "7"; socketId := "A" |} ])
  ∧ ¬ unique_sockets [ {| userId := "5"; socketId := "A" |};
                       {| userId := "7"; socketId := "A" |} ]
  ∧ ¬ members_satisfy unique_sockets after "lobby".
Proof.
  cbv zeta.
  assert (Hdup : ¬ unique_sockets [ {| userId := "5"; socketId := "A" |};
                                    {| userId := "7"; socketId := "A" |} ]).
  { unfold unique_sockets. cbn. rewrite NoDup_cons. intros [Hin _].
    apply Hin. left. }
  split; [vm_compute; reflexivity|].
  split; [unfold unique_sockets; cbn; apply NoDup_singleton|].
  split; [vm_compute; reflexivity|].
  split; [exact Hdup|].
  intros Hsat. apply Hdup, Hsat. vm_compute. reflexivity.
Qed.

(** Uniqueness, channel by channel. *)
Lemma uniqueness_preserved_at (this : Channel) (sid channel : string) (st : State) :
  isPresence channel = false →
  (∀ reason c,
     let st' := final (run (leave this sid channel reason) st) in
     (members_satisfy unique_users st c → members_satisfy unique_users st' c)
     ∧ (members_satisfy unique_sockets st c → members_satisfy unique_sockets st' c))
  ∧ (∀ data c,
       data_channel data = Some channel →
       let st' := final (run (join this sid data) st) in
       (members_satisfy unique_users st channel →
        members_satisfy unique_users st c → members_satisfy unique_users st' c)
       ∧ (members_satisfy unique_sockets st channel →
          no_foreign_entry st sid channel →
          members_satisfy unique_sockets st c → members_satisfy unique_sockets st' c)).
Proof.
  intros Hpres. split.
  - intros reason c st'. subst st'.
    destruct (leave_store this sid channel reason st Hpres) as [Hst|(l & Hl & Hst)].
    + split; apply members_satisfy_same, Hst.
    + cbv zeta in Hst. split; intros Hc.
      * destruct (decide (c = channel)) as [->|Hne].
        -- eapply members_satisfy_write; [exact Hst| |exact Hc].
           apply NoDup_fmap_filter.
           apply (persisted_members_satisfy unique_users st channel l);
             [constructor|exact Hc|exact Hl].
        -- intros l'. rewrite Hst.
           rewrite lookup_insert_ne
             by (intros E; symmetry in E; revert E; apply members_key_not_count).
           rewrite lookup_insert_ne by (intros E; apply members_key_inj in E; congruence).
           apply Hc.
      * destruct (decide (c = channel)) as [->|Hne].
        -- eapply members_satisfy_write; [exact Hst| |exact Hc].
           apply NoDup_fmap_filter.
           apply (persisted_members_satisfy unique_sockets st channel l);
             [constructor|exact Hc|exact Hl].
        -- intros l'. rewrite Hst.
           rewrite lookup_insert_ne
             by (intros E; symmetry in E; revert E; apply members_key_not_count).
           rewrite lookup_insert_ne by (intros E; apply members_key_inj in E; congruence).
           apply Hc.
  - intros data c Hch st'. subst st'.
    destruct (join_store this sid channel data st Hch Hpres)
      as [Hst|(Q & HQ & l & u & Hl & Hu & Hst)].
    + split; intros; eapply members_satisfy_same; eauto.
    + cbv zeta in Hst. split.
      * intros Hchan Hc.
        eapply members_satisfy_write; [exact Hst| |exact Hc].
        apply join_list_unique_users.
        apply (persisted_members_satisfy unique_users st channel l);
          [constructor|exact Hchan|exact Hl].
      * intros Hchan Hown Hc.
        eapply members_satisfy_write; [exact Hst| |exact Hc].
        apply join_list_unique_sockets.
        -- apply (persisted_members_satisfy unique_sockets st channel l);
             [constructor|exact Hchan|exact Hl].
        -- intros m Hm Hsid. specialize (Hown l m Hl Hm Hsid).
           rewrite Hu in Hown. congruence.
Qed.

(** C7, amended. Outside presence channels (whose bookkeeping belongs to
    the presence collaborator), every leave keeps every member list on record
    free of two entries of one socketId, and so does a join provided the list
    of the joined channel holds no entry of the joining connection under a
    userId other than the one it joins with.  Joins and leaves alike keep
    the lists free of two entries of one userId: a join drops what is on
    record for the joining user. *)
Theorem membership_uniqueness_preserved (this : Channel) (sid channel : string) (st : State) :
  isPresence channel = false →
  (∀ reason,
     let st' := final (run (leave this sid channel reason) st) in
     (members_invariant unique_sockets st → members_invariant unique_sockets st')
     ∧ (members_invariant unique_users st → members_invariant unique_users st'))
  ∧ (∀ data,
       data_channel data = Some channel →
       let st' := final (run (join this sid data) st) in
       (members_invariant unique_sockets st → no_foreign_entry st sid channel →
        members_invariant unique_sockets st')
       ∧ (members_invariant unique_users st → members_invariant unique_users st')).
Proof.
  intros Hpres.
  destruct (uniqueness_preserved_at this sid channel st Hpres) as [Hleave Hjoin].
  split.
  - intros reason st'. subst st'. split; intros Hinv c.
    + apply (Hleave reason c), Hinv.
    + apply (Hleave reason c), Hinv.
  - intros data Hch st'. subst st'. split.
    + intros Hinv Hown c. apply (Hjoin data c Hch); [apply Hinv|exact Hown|apply Hinv].
    + intros Hinv c. apply (Hjoin data c Hch); apply Hinv.
Qed.

Lemma membership_uniqueness_preserved_witness :
  members_invariant unique_sockets (final (run (join server "A" (join_request "lobby")) busy))
  ∧ members_invariant unique_users (final (run (join server "A" (join_request "lobby")) busy))
  ∧ members_invariant unique_sockets
      (final (run (leave server "B" "lobby" "transport close") busy)).
Proof.
  pose proof (membership_uniqueness_preserved server "A" "lobby" busy eq_refl) as [_ Hjoin].
  pose proof (membership_uniqueness_preserved server "B" "lobby" busy eq_refl) as [Hleave _].
  specialize (Hjoin (join_request "lobby") eq_refl). cbv zeta in Hjoin.
  specialize (Hleave "transport close"). cbv zeta in Hleave.
  assert (Hlist : ∀ c l, store busy !! members_key c = Some (VMembers l) →
                         l = [ {| userId := "5"; socketId := "B" |};
                               {| userId := "7"; socketId := "C" |};
                               {| userId := "9"; socketId := "A0" |} ]).
  { intros c l. unfold busy. cbn [store].
    rewrite lookup_insert. case_decide as Hk.
    - intros [= <-]. reflexivity.
    - rewrite lookup_singleton. case_decide as Hk'; discriminate. }
  assert (Hu : members_invariant unique_users busy).
  { intros c l Hl. rewrite (Hlist c l Hl).
    unfold unique_users. cbn. repeat (apply NoDup_cons; split; [|]);
      try apply NoDup_nil_2;
      rewrite ?elem_of_cons, ?elem_of_nil; intuition discriminate. }
  assert (Hs : members_invariant unique_sockets busy).
  { intros c l Hl. rewrite (Hlist c l Hl).
    unfold unique_sockets. cbn. repeat (apply NoDup_cons; split; [|]);
      try apply NoDup_nil_2;
      rewrite ?elem_of_cons, ?elem_of_nil; intuition discriminate. }
  split; [|split; [apply Hjoin; exact Hu|apply Hleave; exact Hs]].
  apply Hjoin; [exact Hs|].
  intros l m Hl Hm Hsid. vm_compute in Hl. injection Hl as <-.
  repeat (apply elem_of_cons in Hm as [->|Hm]; [discriminate Hsid|]).
  inversion Hm.
Defined.

(** ** The userId taken from the channel name *)

Lemma contains_search (lit name : string) :
  contains lit name ↔ Regex.search (literal_then_any (chars lit)) (chars name) = true.
Proof. rewrite search_literal_then_any. apply contains_chars. Qed.

(** C8. The pattern behind [onJoin] is looser than a literal
    [user.<digits>]: its dot stands for any character, and only the leftmost
    occurrence of [user] counts.  A connection without userId that joins
    [userX12], a name without any dot, gets the userId 12; one that joins
    [users.user.5], which does contain the segment [user.5], gets none.
    A plain [user.5] gives 5. *)
Theorem onJoin_pattern_is_loose :
  let joined name := userIds (final (run (join server "A" (join_request name)) initial)) !! "A" in
  userIds initial !! "A" = None
  ∧ ¬ contains "." "userX12"
  ∧ joined "userX12" = Some "12"
  ∧ contains "user.5" "users.user.5"
  ∧ joined "users.user.5" = None
  ∧ joined "user.5" = Some "5".
Proof.
  cbv zeta. split; [reflexivity|].
  split; [rewrite contains_search; vm_compute; discriminate|].
  split; [vm_compute; reflexivity|].
  split; [exists "users.", ""; reflexivity|].
  split; vm_compute; reflexivity.
Qed.

(** * Further properties of the coordinator *)

(** ** Classification *)

(** X1. [isPrivate] holds of exactly the names in which [private-] or
    [presence-] occurs, at the start or anywhere else. *)
Theorem isPrivate_occurs_anywhere (name : string) :
  isPrivate name = true ↔ contains "private-" name ∨ contains "presence-" name.
Proof. apply isPrivate_contains. Qed.

(** X2. [isClientEvent] holds of exactly the event names in which [client-]
    occurs, at the start or anywhere else. *)
Theorem isClientEvent_occurs_anywhere (event : string) :
  isClientEvent event = true ↔ contains "client-" event.
Proof. apply isClientEvent_contains. Qed.

(** X3. [isPresence] holds of exactly the names that begin with
    [presence-], and every presence channel is private-style, so that its
    join goes through the authorization of [joinPrivate]. *)
Theorem presence_is_prefix_and_private (name : string) :
  (isPresence name = true ↔ ∃ rest, name = "presence-" +:+ rest)
  ∧ (isPresence name = true → isPrivate name = true).
Proof. split; [apply isPresence_prefix|apply isPresence_isPrivate]. Qed.

(** ** Store keys *)

(** X4. The keys [<channel>:members] and [<channel>:members-count] of one
    channel are distinct, and neither coincides with a key of another
    channel, whatever the channel names are. *)
Theorem store_keys_do_not_collide (c c' : string) :
  (members_key c = members_key c' ↔ c = c')
  ∧ (count_key c = count_key c' ↔ c = c')
  ∧ members_key c ≠ count_key c'.
Proof.
  split; [split; [apply members_key_inj|congruence]|].
  split; [split; [apply count_key_inj|congruence]|].
  apply members_key_not_count.
Qed.

(** ** removeInactive *)

(** X5. [removeInactive] asks the room for its clients once and changes
    nothing; of the list it is given it keeps, in order, exactly the members
    whose connection is in the room and whose userId is not the joining
    member's.  Given [null] it returns the empty list. *)
Theorem removeInactive_keeps_live_others (channel : string) (members : option Value)
    (member : Member) (l : list Member) (st : State) :
  as_list members = Some l →
  ∃ kept,
    run (removeInactive channel members member) st = (Done kept, st, [Clients channel])
    ∧ (∀ m, m ∈ kept ↔ m ∈ l ∧ alive st channel (socketId m) = true
                        ∧ userId m ≠ userId member)
    ∧ kept = filter (λ m, alive st channel (socketId m) = true
                          ∧ userId m ≠ userId member) l
    ∧ (length kept ≤ length l)%nat
    ∧ (members = None → kept = []).
Proof.
  intros Hl. eexists. split.
  { unfold removeInactive. exec. rewrite Hl. reflexivity. }
  split.
  { intros m. rewrite list_elem_of_filter. tauto. }
  split; [reflexivity|]. split; [apply length_filter|].
  intros ->. cbn in Hl. injection Hl as <-. reflexivity.
Qed.

Lemma removeInactive_keeps_live_others_witness :
  ∃ kept,
    run (removeInactive "lobby" (store busy !! "lobby:members")
           {| userId := "9"; socketId := "A" |}) busy
      = (Done kept, busy, [Clients "lobby"])
    ∧ kept = [ {| userId := "5"; socketId := "B" |} ].
Proof.
  destruct (removeInactive_keeps_live_others "lobby" (store busy !! "lobby:members")
              {| userId := "9"; socketId := "A" |}
              [ {| userId := "5"; socketId := "B" |};
                {| userId := "7"; socketId := "C" |};
                {| userId := "9"; socketId := "A0" |} ] busy)
    as (kept & Hrun & _ & Hkept & _); [reflexivity|].
  exists kept. split; [exact Hrun|]. rewrite Hkept. vm_compute. reflexivity.
Defined.

(** ** onJoin *)

Lemma take_digits_all (s : list ascii) : Forall (λ c, is_digit c = true) (take_digits s).
Proof.
  induction s as [|c s IH]; [constructor|]. cbn.
  destruct (is_digit c) eqn:Hc; [constructor; assumption|constructor].
Qed.

Lemma user_search_digits (s g : list ascii) :
  user_search s = Some g → Forall (λ c, is_digit c = true) g.
Proof.
  induction s as [|c s IH]; [discriminate|].
  cbn [user_search]. destruct (user_at (c :: s)) as [g'|] eqn:Hat.
  - intros [= <-]. unfold user_at in Hat.
    repeat match type of Hat with
      | match ?x with _ => _ end = _ => destruct x; try discriminate Hat
      end.
    injection Hat as <-. apply take_digits_all.
  - exact IH.
Qed.

Lemma match_user_digits (channel u : string) : match_user channel = Some u → all_digits u.
Proof.
  unfold match_user, all_digits. destruct (user_search (chars channel)) as [g|] eqn:Hs;
    [|discriminate].
  intros [= <-]. rewrite list_ascii_of_string_of_list_ascii.
  eapply user_search_digits, Hs.
Qed.

(** X6. [onJoin] never fails and touches nothing but the userId of the
    joining connection (and the log).  That userId either stays what it was
    or becomes the group captured from the channel name, which is then a
    non-empty string of decimal digits. *)
Theorem onJoin_sets_digits_only (this : Channel) (sid channel : string) (st : State) :
  let r := run (onJoin this sid channel) st in
  outcome r = Done ()
  ∧ store (final r) = store st ∧ rooms (final r) = rooms st
  ∧ (∀ other, other ≠ sid → userIds (final r) !! other = userIds st !! other)
  ∧ Forall (λ e, is_log e = true) (trace r)
  ∧ (userIds (final r) !! sid = userIds st !! sid
     ∨ ∃ u, userIds (final r) !! sid = Some u ∧ match_user channel = Some u
            ∧ u ≠ "" ∧ all_digits u).
Proof.
  cbv zeta.
  pose proof (onJoin_frame this sid channel st) as (Hs & _ & Hr & _ & Ho).
  pose proof (onJoin_userId this sid channel st) as Hu.
  split; [rewrite onJoin_run; reflexivity|].
  split; [exact Hs|]. split; [exact Hr|]. split; [exact Ho|].
  split.
  { rewrite onJoin_run. unfold trace. cbn.
    destruct (devMode (options this)); repeat constructor. }
  rewrite Hu. unfold userId_after.
  destruct (match_user channel) as [u|] eqn:Hm; [|left; reflexivity].
  destruct (truthy u) eqn:Ht; [|left; reflexivity].
  right. exists u. split; [reflexivity|]. split; [reflexivity|].
  split; [apply truthy_true, Ht|apply match_user_digits with channel, Hm].
Qed.

(** ** The pattern of [onJoin] on well-formed names *)

Lemma user_at_head (c : ascii) (s : list ascii) :
  c ≠ "u"%char → user_at (c :: s) = None.
Proof.
  intros Hc. destruct c as [[] [] [] [] [] [] [] []]; try reflexivity.
  congruence.
Qed.

Lemma user_search_skip (pre s : list ascii) :
  "u"%char ∉ pre → user_search (pre ++ s) = user_search s.
Proof.
  induction pre as [|c pre IH]; [reflexivity|].
  intros Hu. apply not_elem_of_cons in Hu as [Hc Hpre].
  cbn [app user_search]. rewrite user_at_head by congruence. apply IH, Hpre.
Qed.

Lemma take_digits_app (ds rest : list ascii) :
  Forall (λ c, is_digit c = true) ds →
  take_digits rest = [] →
  take_digits (ds ++ rest) = ds.
Proof.
  intros Hds Hrest. induction Hds as [|c ds Hc _ IH]; [exact Hrest|].
  cbn. rewrite Hc. now rewrite IH.
Qed.

(** X7. On a name made of a prefix without the letter [u], then the literal
    [user.], then digits, then a rest that does not go on with a digit, the
    pattern of [onJoin] captures exactly those digits. *)
Theorem match_user_literal_segment (pre ds rest : string) :
  "u"%char ∉ chars pre →
  all_digits ds →
  take_digits (chars rest) = [] →
  match_user (pre +:+ "user." +:+ ds +:+ rest) = Some ds.
Proof.
  intros Hpre Hds Hrest. unfold match_user.
  rewrite !chars_app, user_search_skip by exact Hpre.
  cbn. rewrite take_digits_app by assumption.
  now rewrite string_of_list_ascii_of_string.
Qed.

Lemma match_user_literal_segment_witness :
  match_user "private-App.user.42.inbox" = Some "42".
Proof.
  apply (match_user_literal_segment "private-App." "42" ".inbox").
  - cbn. rewrite !not_elem_of_cons. repeat split; try discriminate. apply not_elem_of_nil.
  - repeat constructor.
  - reflexivity.
Defined.

(** ** Joining: the other outcomes *)

(** X8. A join to a channel that is not private-style by a connection that
    has no userId, and gets none from the channel name, registers the
    connection in the room and does nothing else: the store is neither read
    nor written, nothing is emitted. *)
Theorem join_without_userId_only_registers (this : Channel) (sid channel : string)
    (data : JoinData) (st : State) :
  data_channel data = Some channel → channel ≠ "" → isPrivate channel = false →
  userId_after channel (userIds st !! sid) = None →
  let r := run (join this sid data) st in
  outcome r = Done ()
  ∧ isInChannel (final r) sid channel = true
  ∧ rooms (final r) = {[ (channel, sid) ]} ∪ rooms st
  ∧ store (final r) = store st
  ∧ userIds (final r) !! sid = None
  ∧ List.filter is_store_access (trace r) = []
  ∧ List.filter is_emission (trace r) = []
  ∧ In (SocketJoin sid channel) (trace r).
Proof.
  intros Hch Hne Hpub Hu r. subst r.
  pose proof (onJoin_frame this sid channel st) as (Hs & _ & Hr & _).
  pose proof (onJoin_userId this sid channel st) as Hid. rewrite Hu in Hid.
  rewrite (join_public_run this sid channel data st Hch Hne Hpub), Hu.
  unfold outcome, final, trace in *. cbn.
  rewrite ?Hr. rewrite onJoin_run. cbn.
  split; [reflexivity|].
  split.
  { apply isInChannel_joined; [exact Hne|]. unfold alive. cbn.
    apply bool_decide_eq_true, elem_of_union_l, elem_of_singleton; reflexivity. }
  split; [reflexivity|]. split; [reflexivity|].
  split.
  { rewrite onJoin_run in Hid. exact Hid. }
  destruct (devMode (options this)); cbn; repeat split; auto.
Qed.

Lemma join_without_userId_only_registers_witness :
  let r := run (join server "A" (join_request "lobby")) initial in
  isInChannel (final r) "A" "lobby" = true ∧ store (final r) = store initial.
Proof.
  pose proof (join_without_userId_only_registers server "A" "lobby"
                (join_request "lobby") initial eq_refl) as H.
  cbv zeta in H.
  destruct H as (_ & Hin & _ & Hst & _); [discriminate|reflexivity|reflexivity|].
  split; [exact Hin|exact Hst].
Defined.

(** X9. When the store rejects the read, a join to a channel that is not
    private-style still registers the connection in the room; it logs the
    error, writes nothing and does not fail. *)
Theorem join_survives_store_failure (this : Channel) (sid channel u e : string)
    (data : JoinData) (st : State) :
  data_channel data = Some channel → channel ≠ "" → isPrivate channel = false →
  userId_after channel (userIds st !! sid) = Some u → u ≠ "" →
  store_error st = Some e →
  let r := run (join this sid data) st in
  outcome r = Done ()
  ∧ isInChannel (final r) sid channel = true
  ∧ store (final r) = store st
  ∧ List.filter is_store_access (trace r) = [DbGet (members_key channel)]
  ∧ In (Log LError e) (trace r).
Proof.
  intros Hch Hne Hpub Hu Hune Herr r. subst r. apply truthy_true in Hune.
  pose proof (onJoin_frame this sid channel st) as (Hs & _ & Hr & _).
  rewrite (join_public_run this sid channel data st Hch Hne Hpub), Hu, Hune, Herr.
  unfold outcome, final, trace in *. cbn.
  rewrite ?Hr. rewrite onJoin_run. cbn.
  split; [reflexivity|].
  split.
  { apply isInChannel_joined; [exact Hne|]. unfold alive. cbn.
    apply bool_decide_eq_true, elem_of_union_l, elem_of_singleton; reflexivity. }
  split; [reflexivity|].
  destruct (devMode (options this)); cbn; split; auto.
Qed.

Lemma join_survives_store_failure_witness :
  let down := store_down "ECONNREFUSED" busy in
  let r := run (join server "A" (join_request "lobby")) down in
  outcome r = Done () ∧ store (final r) = store down
  ∧ In (Log LError "ECONNREFUSED") (trace r).
Proof.
  cbv zeta.
  pose proof (join_survives_store_failure server "A" "lobby" "9" "ECONNREFUSED"
                (join_request "lobby") (store_down "ECONNREFUSED" busy) eq_refl) as H.
  cbv zeta in H.
  destruct H as (Hd & _ & Hst & _ & Hlog);
    [discriminate|reflexivity|reflexivity|discriminate|reflexivity|].
  split; [exact Hd|]. split; [exact Hst|exact Hlog].
Defined.

(** ** What joins and leaves keep *)

Lemma join_userIds (this : Channel) (sid channel : string) (data : JoinData) (st : State) :
  data_channel data = Some channel → isPresence channel = false →
  ∀ other, other ≠ sid →
    userIds (final (run (join this sid data) st)) !! other = userIds st !! other.
Proof.
  intros Hch Hpres other Hne.
  destruct (truthy channel) eqn:Ht; cycle 1.
  { unfold join. now rewrite Hch, Ht. }
  pose proof (onJoin_frame this sid channel) as Hframe.
  destruct (isPrivate channel) eqn:Hpriv.
  - unfold join. rewrite Hch, Ht, Hpriv.
    unfold joinPrivate. rewrite run_bind. unfold run at 1, tell at 1.
    destruct (authenticate (private this) sid data) as [res|error].
    + rewrite Hpres. rewrite run_bind. unfold run at 1, socket_join.
      unfold mbind at 1, M_bind at 1, tell at 1, modify at 1. cbn [fst snd app].
      rewrite run_bind. unfold run at 1, when at 1, mret at 1, M_ret at 1.
      destruct (Hframe (set_rooms (λ r, {[ (channel, sid) ]} ∪ r) st))
        as (_ & _ & _ & _ & Ho).
      specialize (Ho other Hne).
      destruct (run (onJoin this sid channel) _) as [[o st'] t]. exact Ho.
    + destruct (devMode (options this)); reflexivity.
  - apply truthy_true in Ht.
    rewrite (join_public_run this sid channel data st Hch Ht Hpriv).
    destruct (Hframe st) as (_ & _ & _ & _ & Ho). specialize (Ho other Hne).
    destruct (userId_after channel (userIds st !! sid)) as [u|]; [|exact Ho].
    destruct (truthy u); [|exact Ho].
    destruct (store_error st); [exact Ho|].
    destruct (persisted_members st channel); exact Ho.
Qed.

(** X10. Outside presence channels, a join or a leave on a channel leaves
    every key of the store other than that channel's two keys as it was,
    and a join leaves the userId of every other connection as it was. *)
Theorem join_and_leave_touch_own_keys_only (this : Channel) (sid channel : string) (st : State) :
  isPresence channel = false →
  (∀ data key, data_channel data = Some channel →
     key ≠ members_key channel → key ≠ count_key channel →
     store (final (run (join this sid data) st)) !! key = store st !! key)
  ∧ (∀ reason key,
       key ≠ members_key channel → key ≠ count_key channel →
       store (final (run (leave this sid channel reason) st)) !! key = store st !! key)
  ∧ (∀ data other, data_channel data = Some channel → other ≠ sid →
       userIds (final (run (join this sid data) st)) !! other = userIds st !! other).
Proof.
  intros Hpres. split; [|split].
  - intros data key Hch Hk1 Hk2.
    destruct (join_store this sid channel data st Hch Hpres)
      as [->|(Q & HQ & l & u & _ & _ & Hst)]; [reflexivity|].
    cbv zeta in Hst. rewrite Hst. now rewrite !lookup_insert_ne by congruence.
  - intros reason key Hk1 Hk2.
    destruct (leave_store this sid channel reason st Hpres) as [->|(l & _ & Hst)];
      [reflexivity|].
    cbv zeta in Hst. rewrite Hst. now rewrite !lookup_insert_ne by congruence.
  - intros data other Hch Hne. apply (join_userIds this sid channel data st Hch Hpres other Hne).
Qed.

Lemma join_and_leave_touch_own_keys_only_witness :
  store (final (run (join server "A" (join_request "chat")) busy)) !! "lobby:members"
  = store busy !! "lobby:members".
Proof.
  pose proof (join_and_leave_touch_own_keys_only server "A" "chat" busy eq_refl)
    as (Hjoin & _).
  apply (Hjoin (join_request "chat") "lobby:members" eq_refl); discriminate.
Defined.

(** ** Joining twice *)

Lemma onJoin_final (this : Channel) (sid channel : string) (st : State) :
  final (run (onJoin this sid channel) st) = identified sid channel st.
Proof. now rewrite onJoin_run. Qed.

Lemma identified_idem (sid channel : string) (st : State) :
  identified sid channel (identified sid channel st) = identified sid channel st.
Proof.
  unfold identified, set_userIds. cbn. f_equal.
  destruct (match_user channel) as [d|]; [destruct (truthy d)|]; try reflexivity.
  apply insert_insert_eq.
Qed.

Lemma registered_idem (sid channel : string) (st : State) :
  registered sid channel (registered sid channel st) = registered sid channel st.
Proof.
  unfold registered, set_rooms. cbn. f_equal.
  rewrite (assoc_L (∪)). now rewrite union_idemp_L.
Qed.

Lemma identified_registered (sid channel : string) (st : State) :
  identified sid channel (registered sid channel st)
  = registered sid channel (identified sid channel st).
Proof. reflexivity. Qed.

Lemma joinPrivate_final (this : Channel) (sid channel : string) (data : JoinData) (st : State) :
  isPresence channel = false →
  final (run (joinPrivate this sid data channel) st)
  = match authenticate (private this) sid data with
    | inl _ => identified sid channel (registered sid channel st)
    | inr _ => st
    end.
Proof.
  intros Hpres. unfold joinPrivate. rewrite run_bind. unfold run at 1, tell at 1.
  destruct (authenticate (private this) sid data) as [res|error].
  - rewrite Hpres. rewrite run_bind. unfold run at 1, socket_join.
    unfold mbind at 1, M_bind at 1, tell at 1, modify at 1. cbn [fst snd app].
    rewrite run_bind. unfold run at 1, when at 1, mret at 1, M_ret at 1.
    rewrite onJoin_run. reflexivity.
  - destruct (devMode (options this)); reflexivity.
Qed.

Lemma join_public_final (this : Channel) (sid channel : string) (data : JoinData) (st : State) :
  data_channel data = Some channel → channel ≠ "" → isPrivate channel = false →
  let st1 := registered sid channel (identified sid channel st) in
  final (run (join this sid data) st) =
    match userIds st1 !! sid with
    | Some u =>
        if truthy u then
          match store_error st1 with
          | Some _ => st1
          | None =>
              match persisted_members st1 channel with
              | Some l =>
                  let new := filter (λ m, alive st1 channel (socketId m) = true
                                          ∧ userId m ≠ u) l
                             ++ [{| userId := u; socketId := sid |}] in
                  set_store (insert (count_key channel) (VNumber (length new)))
                    (set_store (insert (members_key channel) (VMembers new)) st1)
              | None => st1
              end
          end
        else st1
    | None => st1
    end.
Proof.
  intros Hch Hne Hpub st1.
  rewrite (join_public_run this sid channel data st Hch Hne Hpub).
  pose proof (onJoin_userId this sid channel st) as Hid.
  rewrite onJoin_final in *.
  change (userIds st1 !! sid) with (userIds (identified sid channel st) !! sid).
  rewrite Hid.
  change (store_error st1) with (store_error st).
  change (persisted_members st1 channel) with (persisted_members st channel).
  destruct (userId_after channel (userIds st !! sid)) as [u|]; [|reflexivity].
  destruct (truthy u); [|reflexivity].
  destruct (store_error st); [reflexivity|].
  destruct (persisted_members st channel); reflexivity.
Qed.

Lemma filter_join_list_again (Q : Member → Prop) `{∀ m, Decision (Q m)}
    (u sid : string) (l : list Member) :
  filter (λ m, Q m ∧ userId m ≠ u)
    (filter (λ m, Q m ∧ userId m ≠ u) l ++ [{| userId := u; socketId := sid |}])
  = filter (λ m, Q m ∧ userId m ≠ u) l.
Proof.
  rewrite filter_app, filter_cons_False, filter_nil, app_nil_r by (cbn; tauto).
  induction l as [|m l IH]; [reflexivity|].
  destruct (decide (Q m ∧ userId m ≠ u)) as [HP|HP].
  - rewrite (filter_cons_True _ m l HP), (filter_cons_True _ m _ HP). now rewrite IH.
  - rewrite (filter_cons_False _ m l HP). exact IH.
Qed.

(** X12. Joining is idempotent on the world: outside presence channels, a
    second join of the same connection with the same request, the backend
    and the store answering as before, leaves the store, the rooms and the
    userIds exactly as the first join left them. *)
Theorem join_twice_is_join_once (this : Channel) (sid channel : string)
    (data : JoinData) (st : State) :
  data_channel data = Some channel → isPresence channel = false →
  let once := final (run (join this sid data) st) in
  final (run (join this sid data) once) = once.
Proof.
  intros Hch Hpres once. subst once.
  destruct (truthy channel) eqn:Ht; cycle 1.
  { unfold join. rewrite Hch, Ht. reflexivity. }
  destruct (isPrivate channel) eqn:Hpriv.
  { unfold join. rewrite Hch, Ht, Hpriv.
    rewrite !(joinPrivate_final this sid channel data _ Hpres).
    destruct (authenticate (private this) sid data); [|reflexivity].
    rewrite (identified_registered sid channel (identified _ _ _)), identified_idem.
    rewrite <- identified_registered, registered_idem. reflexivity. }
  apply truthy_true in Ht.
  rewrite !(join_public_final this sid channel data _ Hch Ht Hpriv). cbv zeta.
  set (st1 := registered sid channel (identified sid channel st)).
  assert (Hst1 : registered sid channel (identified sid channel st1) = st1).
  { subst st1. rewrite <- identified_registered, registered_idem.
    rewrite identified_registered, identified_idem. reflexivity. }
  destruct (userIds st1 !! sid) as [u|] eqn:Hu; cycle 1.
  { rewrite Hst1, Hu. reflexivity. }
  destruct (truthy u) eqn:Htu; cycle 1.
  { rewrite Hst1, Hu, Htu. reflexivity. }
  destruct (store_error st1) as [e|] eqn:He.
  { rewrite Hst1, Hu, Htu, He. reflexivity. }
  destruct (persisted_members st1 channel) as [l|] eqn:Hl; cycle 1.
  { rewrite Hst1, Hu, Htu, He, Hl. reflexivity. }
  set (new := filter _ l ++ _).
  set (st2 := set_store _ (set_store _ st1)).
  assert (Hst2 : registered sid channel (identified sid channel st2)
                 = set_store (insert (count_key channel) (VNumber (length new)))
                     (set_store (insert (members_key channel) (VMembers new))
                        (registered sid channel (identified sid channel st1)))).
  { reflexivity. }
  rewrite Hst2, Hst1. fold st2.
  change (userIds st2 !! sid) with (userIds st1 !! sid).
  change (store_error st2) with (store_error st1).
  rewrite Hu, Htu, He.
  assert (Hl2 : persisted_members st2 channel = Some new).
  { unfold persisted_members. subst st2. cbn.
    rewrite lookup_insert_ne by (symmetry; apply members_key_not_count).
    now rewrite lookup_insert_eq. }
  rewrite Hl2.
  change (alive st2) with (alive st1).
  assert (Hf : filter (λ m, alive st1 channel (socketId m) = true ∧ userId m ≠ u) new
               = filter (λ m, alive st1 channel (socketId m) = true ∧ userId m ≠ u) l)
    by apply filter_join_list_again.
  rewrite Hf. fold new.
  subst st2. unfold set_store. cbn. f_equal.
  apply map_eq. intros k.
  destruct (decide (k = count_key channel)) as [->|Hk1];
    [now rewrite !lookup_insert_eq|].
  rewrite !(lookup_insert_ne _ (count_key channel)) by congruence.
  destruct (decide (k = members_key channel)) as [->|Hk2];
    [now rewrite !lookup_insert_eq|].
  now rewrite !lookup_insert_ne by congruence.
Qed.

Lemma join_twice_is_join_once_witness :
  let once := final (run (join server "A" (join_request "lobby")) busy) in
  final (run (join server "A" (join_request "lobby")) once) = once.
Proof.
  apply (join_twice_is_join_once server "A" "lobby" (join_request "lobby") busy);
    reflexivity.
Defined.

(** ** A granted join to a private channel *)

Lemma joinPrivate_granted_run (this : Channel) (sid channel : string) (data : JoinData)
    (res : AuthGrant) (st : State) :
  isPresence channel = false →
  authenticate (private this) sid data = inl res →
  run (joinPrivate this sid data channel) st =
    (Done (), identified sid channel (registered sid channel st),
     [Authenticate sid channel; SocketJoin sid channel]
     ++ (if devMode (options this)
         then [Log LInfo (sid +:+ " joined channel: " +:+ channel)] else [])).
Proof.
  intros Hpres Hres. unfold joinPrivate. rewrite run_bind. unfold run at 1, tell at 1.
  rewrite Hres, Hpres. rewrite run_bind. unfold run at 1, socket_join.
  unfold mbind at 1, M_bind at 1, tell at 1, modify at 1. cbn [fst snd app].
  rewrite run_bind. unfold run at 1, when at 1, mret at 1, M_ret at 1.
  rewrite onJoin_run. reflexivity.
Qed.

(** X13. A granted join to a private channel that is no presence channel
    asks the backend once, then registers the connection in the room and
    takes the userId from the channel name: these two requests, and in dev
    mode one log line, are all it does.  It neither reads nor writes the
    store and emits nothing. *)
Theorem granted_private_join_registers (this : Channel) (sid channel : string)
    (data : JoinData) (res : AuthGrant) (st : State) :
  data_channel data = Some channel → isPrivate channel = true →
  isPresence channel = false →
  authenticate (private this) sid data = inl res →
  let r := run (join this sid data) st in
  outcome r = Done ()
  ∧ isInChannel (final r) sid channel = true
  ∧ rooms (final r) = {[ (channel, sid) ]} ∪ rooms st
  ∧ store (final r) = store st
  ∧ userIds (final r) !! sid = userId_after channel (userIds st !! sid)
  ∧ List.filter is_store_access (trace r) = []
  ∧ List.filter is_emission (trace r) = []
  ∧ trace r
    = [Authenticate sid channel; SocketJoin sid channel]
      ++ (if devMode (options this)
          then [Log LInfo (sid +:+ " joined channel: " +:+ channel)] else [])
  ∧ List.filter (λ e, match e with Authenticate _ _ => true | _ => false end) (trace r)
    = [Authenticate sid channel].
Proof.
  intros Hch Hpriv Hpres Hres r. subst r.
  unfold join. rewrite Hch, (isPrivate_truthy _ Hpriv), Hpriv.
  rewrite (joinPrivate_granted_run this sid channel data res st Hpres Hres).
  unfold outcome, final, trace. cbn [fst snd].
  split; [reflexivity|].
  split.
  { rewrite (isInChannel_private _ _ _ Hpriv). unfold alive.
    apply bool_decide_eq_true, elem_of_union_l, elem_of_singleton; reflexivity. }
  split; [reflexivity|]. split; [reflexivity|].
  split.
  { unfold identified, registered, userId_after. cbn.
    destruct (match_user channel) as [d|]; [destruct (truthy d)|]; try reflexivity.
    apply lookup_insert_eq. }
  destruct (devMode (options this)); cbn; repeat split; eauto.
Qed.

Lemma granted_private_join_registers_witness :
  let this := channel_with quiet (granting None) in
  let r := run (join this "A" (join_request "private-user.7")) initial in
  isInChannel (final r) "A" "private-user.7" = true
  ∧ userIds (final r) !! "A" = Some "7"
  ∧ store (final r) = store initial.
Proof.
  cbv zeta.
  pose proof (granted_private_join_registers (channel_with quiet (granting None)) "A"
                "private-user.7" (join_request "private-user.7")
                {| channel_data := None |} initial eq_refl) as H.
  cbv zeta in H.
  destruct H as (_ & Hin & _ & Hst & Hu & _); [reflexivity..|].
  split; [exact Hin|]. split; [rewrite Hu; reflexivity|exact Hst].
Defined.

(** ** What joins and leaves never do *)

Lemma leave_hook_effects_may (this : Channel) (sid channel : string) (st : State) :
  Forall (λ e, leave_may e = true) (leave_hook_effects this sid channel st).
Proof.
  unfold leave_hook_effects. destruct (hook_configured (options this)); cbn [when].
  - destruct (sendHook_run this sid channel "leave" st) as (req & logs & -> & Hlogs).
    unfold trace. cbn [snd]. constructor; [reflexivity|].
    eapply Forall_impl; [exact Hlogs|]. intros e He. now destruct e.
  - constructor.
Qed.

(** X14. Outside presence channels a join never calls the webhook, never
    takes a connection out of a room and never broadcasts; a leave never
    emits to any connection, never asks the backend for authorization,
    never registers a connection in a room and never asks a room for its
    clients. *)
Theorem joins_and_leaves_never (this : Channel) (sid channel : string) (st : State) :
  isPresence channel = false →
  (∀ data, data_channel data = Some channel →
     Forall (λ e, join_may e = true) (trace (run (join this sid data) st)))
  ∧ (∀ reason, Forall (λ e, leave_may e = true)
                 (trace (run (leave this sid channel reason) st))).
Proof.
  intros Hpres. split.
  - intros data Hch.
    destruct (truthy channel) eqn:Ht; cycle 1.
    { unfold join. rewrite Hch, Ht. constructor. }
    destruct (isPrivate channel) eqn:Hpriv.
    + unfold join. rewrite Hch, Ht, Hpriv.
      destruct (authenticate (private this) sid data) as [res|error] eqn:Hauth.
      * rewrite (joinPrivate_granted_run this sid channel data res st Hpres Hauth).
        unfold trace. cbn. destruct (devMode (options this)); repeat constructor.
      * unfold joinPrivate. exec. rewrite Hauth.
        destruct (devMode (options this)); repeat constructor.
    + apply truthy_true in Ht.
      rewrite (join_public_run this sid channel data st Hch Ht Hpriv).
      rewrite onJoin_run. unfold trace. cbn [snd].
      destruct (userId_after channel (userIds st !! sid)) as [u|];
        [destruct (truthy u);
         [destruct (store_error st); [|destruct (persisted_members st channel)]|]|];
        destruct (devMode (options this)); cbn; repeat constructor.
  - intros reason.
    destruct (truthy channel) eqn:Ht; cycle 1.
    { unfold leave. rewrite Ht. constructor. }
    apply truthy_true in Ht.
    rewrite (leave_run this sid channel reason st Ht Hpres).
    pose proof (leave_hook_effects_may this sid channel
                  (set_rooms (λ r, r ∖ {[ (channel, sid) ]}) st)) as Hhook.
    assert (Hsync : Forall (λ e, leave_may e = true)
              ([DbGet (members_key channel); SocketLeave sid channel]
               ++ leave_hook_effects this sid channel
                    (set_rooms (λ r, r ∖ {[ (channel, sid) ]}) st)
               ++ (if devMode (options this)
                   then [Log LInfo (sid +:+ " left channel: " +:+ channel +:+ " ("
                                    +:+ reason +:+ ")")]
                   else []))).
    { apply Forall_app. split; [repeat constructor|].
      apply Forall_app. split; [exact Hhook|].
      destruct (devMode (options this)); repeat constructor. }
    destruct (store_error st); [|destruct (persisted_members st channel)];
      unfold trace; cbn [snd]; try exact Hsync;
      apply Forall_app; split; try exact Hsync; repeat constructor.
Qed.

Lemma joins_and_leaves_never_witness :
  Forall (λ e, join_may e = true) (trace (run (join server "A" (join_request "lobby")) busy))
  ∧ Forall (λ e, leave_may e = true)
      (trace (run (leave server "B" "lobby" "transport close") busy)).
Proof.
  pose proof (joins_and_leaves_never server "A" "lobby" busy eq_refl) as [Hj _].
  pose proof (joins_and_leaves_never server "B" "lobby" busy eq_refl) as [_ Hl].
  split; [apply Hj; reflexivity|apply Hl].
Defined.

(** ** Leaving: the room and the failing store *)

Lemma leave_unregisters (this : Channel) (sid channel reason : string) (st : State) :
  channel ≠ "" → isPresence channel = false →
  let r := run (leave this sid channel reason) st in
  rooms (final r) = rooms st ∖ {[ (channel, sid) ]}
  ∧ userIds (final r) = userIds st
  ∧ In (SocketLeave sid channel) (trace r).
Proof.
  intros Hne Hpres r. subst r.
  rewrite (leave_run this sid channel reason st Hne Hpres).
  destruct (store_error st); [|destruct (persisted_members st channel)];
    unfold final, trace; cbn [fst snd];
    (split; [reflexivity|]); (split; [reflexivity|]);
    rewrite <- ?app_assoc; right; left; reflexivity.
Qed.

Lemma leave_not_alive (this : Channel) (sid channel reason : string) (st : State) :
  channel ≠ "" → isPresence channel = false →
  alive (final (run (leave this sid channel reason) st)) channel sid = false.
Proof.
  intros Hne Hpres.
  destruct (leave_unregisters this sid channel reason st Hne Hpres) as (Hrooms & _).
  unfold alive. rewrite Hrooms.
  apply bool_decide_eq_false. rewrite elem_of_difference, elem_of_singleton. tauto.
Qed.

(** X15. Whatever the store and the webhook answer, also when handling the
    store's answer fails, a leave from a named channel that is no presence
    channel takes the connection out of that channel's room and leaves every
    other room membership and every userId as it was.  [isInChannel] then
    answers false, unless the channel is named like a property every object
    inherits: of such a name it answers true, joined or not. *)
Theorem leave_always_unregisters (this : Channel) (sid channel reason : string) (st : State) :
  channel ≠ "" → isPresence channel = false →
  let r := run (leave this sid channel reason) st in
  alive (final r) channel sid = false
  ∧ isInChannel (final r) sid channel = inherited channel
  ∧ rooms (final r) = rooms st ∖ {[ (channel, sid) ]}
  ∧ (∀ room id, (room, id) ≠ (channel, sid) →
       alive (final r) room id = alive st room id)
  ∧ userIds (final r) = userIds st
  ∧ In (SocketLeave sid channel) (trace r).
Proof.
  intros Hne Hpres r. subst r.
  pose proof (leave_not_alive this sid channel reason st Hne Hpres) as Hout.
  destruct (leave_unregisters this sid channel reason st Hne Hpres) as (Hrooms & Hids & Hin).
  split; [exact Hout|].
  split; [apply isInChannel_out, Hout|].
  split; [exact Hrooms|].
  split; [|split; [exact Hids|exact Hin]].
  intros room id Hother. unfold alive. rewrite Hrooms. apply bool_decide_ext.
  rewrite elem_of_difference, elem_of_singleton. tauto.
Qed.

Lemma leave_always_unregisters_witness :
  let r := run (leave server "B" "lobby" "transport close") busy in
  isInChannel busy "B" "lobby" = true ∧ isInChannel (final r) "B" "lobby" = false.
Proof.
  pose proof (leave_always_unregisters server "B" "lobby" "transport close" busy) as H.
  cbv zeta in H. destruct H as (_ & Hout & _); [discriminate|reflexivity|].
  split; [reflexivity|exact Hout].
Defined.

(** X16. When the store rejects the read, a leave from a channel that is no
    presence channel still drops the room registration and still notifies
    the webhook if one is configured; it logs the error, writes nothing and
    does not fail. *)
Theorem leave_survives_store_failure (this : Channel) (sid channel reason e : string)
    (st : State) :
  channel ≠ "" → isPresence channel = false → store_error st = Some e →
  let r := run (leave this sid channel reason) st in
  outcome r = Done ()
  ∧ store (final r) = store st
  ∧ alive (final r) channel sid = false
  ∧ List.filter is_store_access (trace r) = [DbGet (members_key channel)]
  ∧ List.existsb is_hook (trace r) = hook_configured (options this)
  ∧ In (Log LError e) (trace r).
Proof.
  intros Hne Hpres Herr r.
  pose proof (leave_not_alive this sid channel reason st Hne Hpres) as Hout.
  subst r. revert Hout.
  rewrite (leave_run this sid channel reason st Hne Hpres), Herr.
  unfold outcome, final, trace. cbn [fst snd]. intros Hout.
  pose proof (leave_hook_run this sid channel
                (set_rooms (λ r, r ∖ {[ (channel, sid) ]}) st)) as (_ & Hacc & Hhook).
  split; [reflexivity|]. split; [reflexivity|]. split; [exact Hout|].
  split.
  { rewrite !List.filter_app, Hacc. cbn. destruct (devMode (options this)); reflexivity. }
  split.
  { rewrite !existsb_app, Hhook. cbn.
    destruct (devMode (options this)); cbn; now rewrite ?orb_false_r. }
  apply in_or_app. right. left. reflexivity.
Qed.

Lemma leave_survives_store_failure_witness :
  let down := store_down "ECONNREFUSED" busy in
  let r := run (leave server "B" "lobby" "transport close") down in
  outcome r = Done () ∧ store (final r) = store down
  ∧ alive (final r) "lobby" "B" = false.
Proof.
  pose proof (leave_survives_store_failure server "B" "lobby" "transport close"
                "ECONNREFUSED" (store_down "ECONNREFUSED" busy)) as H.
  cbv zeta in H.
  destruct H as (Hd & Hst & Hout & _); [discriminate|reflexivity|reflexivity|].
  split; [exact Hd|]. split; [exact Hst|exact Hout].
Defined.

(** ** Join, then leave *)

Lemma filter_all_same {A : Type} (P : A → Prop) `{∀ x, Decision (P x)} (l : list A) :
  (∀ x, x ∈ l → P x) → filter P l = l.
Proof.
  induction l as [|x l IH]; [reflexivity|]. intros Hall.
  rewrite filter_cons_True by (apply Hall; left).
  f_equal. apply IH. intros y Hy. apply Hall. now right.
Qed.

Lemma not_private_not_presence (channel : string) :
  isPrivate channel = false → isPresence channel = false.
Proof.
  intros Hpub. destruct (isPresence channel) eqn:Hp; [|reflexivity].
  apply isPresence_isPrivate in Hp. congruence.
Qed.

(** X17. A join followed by the leave of the same connection, on a channel
    that is not private-style, with nothing in between, the store answering
    with a readable list and the connection joining with a userId (its own
    or the one the channel name gives it): the list on record
    afterwards is the earlier list without the entries the join dropped
    (connections not in the room, earlier entries of the joining user) and
    without any entry of the connection; the count is its length and the
    connection is out of the room.  When every earlier member was in the
    room, of another user and on another connection, the list is the earlier
    list again. *)
Theorem join_then_leave (this : Channel) (sid channel u reason : string)
    (data : JoinData) (S : list Member) (st : State) :
  data_channel data = Some channel → channel ≠ "" → isPrivate channel = false →
  store_error st = None →
  persisted_members st channel = Some S →
  userId_after channel (userIds st !! sid) = Some u → u ≠ "" →
  let joined := final (run (join this sid data) st) in
  let left := final (run (leave this sid channel reason) joined) in
  let rest := filter (λ m, socketId m ≠ sid)
                (filter (λ m, alive joined channel (socketId m) = true ∧ userId m ≠ u) S) in
  persisted_members left channel = Some rest
  ∧ store left !! count_key channel = Some (VNumber (length rest))
  ∧ alive left channel sid = false
  ∧ (∀ m, m ∈ rest → socketId m ≠ sid ∧ userId m ≠ u)
  ∧ ((∀ m, m ∈ S → alive st channel (socketId m) = true ∧ userId m ≠ u
                    ∧ socketId m ≠ sid) → rest = S).
Proof.
  intros Hch Hne Hpub Hok HS Hu Hune joined left rest.
  pose proof (not_private_not_presence channel Hpub) as Hpres.
  pose proof Hune as Htu. apply truthy_true in Htu.
  assert (Hjoined : joined
    = let st1 := registered sid channel (identified sid channel st) in
      let new := filter (λ m, alive st1 channel (socketId m) = true ∧ userId m ≠ u) S
                 ++ [{| userId := u; socketId := sid |}] in
      set_store (insert (count_key channel) (VNumber (length new)))
        (set_store (insert (members_key channel) (VMembers new)) st1)).
  { subst joined.
    rewrite (join_public_final this sid channel data st Hch Hne Hpub). cbv zeta.
    pose proof (onJoin_userId this sid channel st) as Hid. rewrite onJoin_final, Hu in Hid.
    change (userIds (registered sid channel (identified sid channel st)) !! sid)
      with (userIds (identified sid channel st) !! sid).
    rewrite Hid, Htu.
    change (store_error (registered sid channel (identified sid channel st)))
      with (store_error st).
    change (persisted_members (registered sid channel (identified sid channel st)) channel)
      with (persisted_members st channel).
    now rewrite Hok, HS. }
  cbv zeta in Hjoined.
  set (st1 := registered sid channel (identified sid channel st)) in *.
  assert (Halive : ∀ id, alive joined channel id = alive st1 channel id).
  { intros id. now rewrite Hjoined. }
  assert (Hrest : rest = filter (λ m, socketId m ≠ sid)
            (filter (λ m, alive st1 channel (socketId m) = true ∧ userId m ≠ u) S
             ++ [{| userId := u; socketId := sid |}])).
  { subst rest. rewrite filter_app, filter_cons_False, filter_nil, app_nil_r
      by (cbn; tauto).
    f_equal. apply list_filter_iff. intros m. now rewrite Halive. }
  assert (Hread : persisted_members joined channel
            = Some (filter (λ m, alive st1 channel (socketId m) = true ∧ userId m ≠ u) S
                    ++ [{| userId := u; socketId := sid |}])).
  { rewrite Hjoined. unfold persisted_members. cbn.
    rewrite lookup_insert_ne by (symmetry; apply members_key_not_count).
    now rewrite lookup_insert_eq. }
  assert (Herr : store_error joined = None) by now rewrite Hjoined.
  pose proof (leave_not_alive this sid channel reason joined Hne Hpres) as Hout.
  fold left in Hout.
  assert (Hleft : store left
    = <[count_key channel := VNumber (length rest)]>
        (<[members_key channel := VMembers rest]> (store joined))).
  { subst left. rewrite (leave_run this sid channel reason joined Hne Hpres), Herr, Hread.
    cbv zeta. rewrite <- Hrest. reflexivity. }
  split.
  { unfold persisted_members. rewrite Hleft.
    rewrite lookup_insert_ne by (symmetry; apply members_key_not_count).
    now rewrite lookup_insert_eq. }
  split; [rewrite Hleft; apply lookup_insert_eq|].
  split; [exact Hout|].
  split.
  { intros m Hm. subst rest.
    apply list_elem_of_filter in Hm as [Hs Hm].
    apply list_elem_of_filter in Hm as [[_ Hm] _]. auto. }
  intros Hall. subst rest.
  rewrite (filter_all_same (λ m, alive joined channel (socketId m) = true ∧ userId m ≠ u)).
  - apply filter_all_same. intros m Hm. apply Hall, Hm.
  - intros m Hm. destruct (Hall m Hm) as (Ha & Hm' & _). split; [|exact Hm'].
    rewrite Halive. unfold alive, st1 in *. cbn.
    apply bool_decide_eq_true. apply bool_decide_eq_true in Ha.
    apply elem_of_union_r, Ha.
Qed.

Lemma join_then_leave_witness :
  let joined := final (run (join server "A" (join_request "lobby")) busy) in
  let left := final (run (leave server "A" "lobby" "transport close") joined) in
  persisted_members left "lobby" = Some [ {| userId := "5"; socketId := "B" |} ]
  ∧ alive left "lobby" "A" = false.
Proof.
  pose proof (join_then_leave server "A" "lobby" "9" "transport close"
                (join_request "lobby")
                [ {| userId := "5"; socketId := "B" |};
                  {| userId := "7"; socketId := "C" |};
                  {| userId := "9"; socketId := "A0" |} ] busy eq_refl) as H.
  cbv zeta in H.
  destruct H as (Hl & _ & Hout & _);
    [discriminate|reflexivity|reflexivity|reflexivity|reflexivity|discriminate|].
  cbv zeta. split; [|exact Hout].
  rewrite Hl. vm_compute. reflexivity.
Defined.

(** X18. Once a connection has left a channel that is no presence channel
    it can no longer pass client events on to it: whatever the payload, a
    client event of that connection for that channel is dropped. *)
Theorem no_client_events_after_leave (this : Channel) (sid channel reason : string)
    (payload : ClientPayload) (d : EventData) (st : State) :
  channel ≠ "" → isPresence channel = false →
  decoded this payload = DObject d → ev_channel d = Some channel →
  let left := final (run (leave this sid channel reason) st) in
  run (clientEvent this sid payload) left = (Done (), left, []).
Proof.
  intros Hne Hpres Hd Hc left.
  pose proof (leave_not_alive this sid channel reason st Hne Hpres) as Hout.
  fold left in Hout.
  destruct (ev_event d) as [event|] eqn:He.
  - rewrite (clientEvent_object_run this sid payload d event channel left Hd He Hc).
    destruct (isPrivate channel) eqn:Hp; [|now rewrite andb_false_r].
    rewrite (isInChannel_private _ _ _ Hp), Hout. now rewrite andb_false_r.
  - unfold clientEvent. now rewrite Hd, He.
Qed.

Lemma no_client_events_after_leave_witness :
  let payload := Object {| ev_event := Some "client-typing";
                           ev_channel := Some "private-chat"; ev_data := Null |} in
  let st := registered "A" "private-chat" initial in
  trace (run (clientEvent server "A" payload) st)
    = [Broadcast "A" "private-chat" "client-typing" [Str "private-chat"; Null]]
  ∧ trace (run (clientEvent server "A" payload)
             (final (run (leave server "A" "private-chat" "bye") st))) = [].
Proof.
  cbv zeta. split; [reflexivity|].
  rewrite (no_client_events_after_leave server "A" "private-chat" "bye" _
             {| ev_event := Some "client-typing";
                ev_channel := Some "private-chat"; ev_data := Null |});
    [reflexivity|discriminate|reflexivity|reflexivity|reflexivity].
Defined.

(** ** The webhook *)

(** X19. [sendHook] posts exactly one request and absorbs whatever comes
    back: for every reply, a failure of the network included, it returns
    normally with the world unchanged, and all it does besides the request is
    logging.  The request goes to the hook host, or to the auth host when no
    hook host is configured or it is empty, followed by the hook endpoint,
    which is spelled [undefined] when none is configured; it carries the
    connection's userId and cookie, the event and the channel.  A failure
    of the network is always logged; outside dev mode a reply, whatever its
    status, leaves no trace at all. *)
Theorem sendHook_posts_once_and_absorbs (this : Channel) (sid channel event : string)
    (st : State) :
  ∃ req logs,
    run (sendHook this sid channel event) st = (Done (), st, HttpPost req :: logs)
    ∧ Forall (λ e, is_log e = true) logs
    ∧ form_userId req = userIds st !! sid
    ∧ form_event req = event ∧ form_channel req = channel
    ∧ header_Cookie req = cookies st !! sid
    ∧ header_X_Requested_With req = "XMLHttpRequest"
    ∧ (∀ h, hookHost (options this) = Some h → h ≠ "" →
         (∀ p, hookEndpoint (options this) = Some p → url req = h +:+ p)
         ∧ (hookEndpoint (options this) = None → url req = h +:+ "undefined"))
    ∧ (hookHost (options this) = None ∨ hookHost (options this) = Some "" →
         (∀ p, hookEndpoint (options this) = Some p →
            url req = authHost (options this) +:+ p)
         ∧ (hookEndpoint (options this) = None →
            url req = authHost (options this) +:+ "undefined"))
    ∧ (∀ e, request_post this req = NetworkError e → In (Log LError e) logs)
    ∧ (devMode (options this) = false →
       ∀ code body, request_post this req = Response code body → logs = []).
Proof.
  pose (req := {| url := match hookHost (options this) with
                         | Some h => if truthy h then h else authHost (options this)
                         | None => authHost (options this)
                         end +:+ default "undefined" (hookEndpoint (options this));
                  form_userId := userIds st !! sid;
                  form_event := event;
                  form_channel := channel;
                  header_Cookie := cookies st !! sid;
                  header_X_Requested_With := "XMLHttpRequest" |}).
  exists req.
  assert (Hcases : ∃ logs,
    run (sendHook this sid channel event) st = (Done (), st, HttpPost req :: logs)
    ∧ Forall (λ e, is_log e = true) logs
    ∧ (∀ e, request_post this req = NetworkError e → In (Log LError e) logs)
    ∧ (devMode (options this) = false →
       ∀ code body, request_post this req = Response code body → logs = [])).
  { unfold sendHook, prepareHookHeaders. exec. fold req.
    destruct (request_post this req) as [err|code body].
    - destruct (devMode (options this)); eexists; (split; [reflexivity|]);
        (split; [repeat constructor|]); (split; [|intros; discriminate]);
        intros e [= <-]; cbn; auto.
    - destruct (code =? 200)%Z; destruct (devMode (options this));
        eexists; (split; [reflexivity|]);
        (split; [repeat constructor|]); (split; [intros; discriminate|]);
        intros Hd; try discriminate Hd; reflexivity. }
  destruct Hcases as (logs & Hrun & Hlogs & Herr & Hquiet).
  exists logs. split; [exact Hrun|]. split; [exact Hlogs|].
  do 5 (split; [reflexivity|]).
  split.
  { intros h Hh Hne. apply truthy_true in Hne. subst req. cbn. rewrite Hh, Hne.
    split; [intros p Hp|intros Hp]; now rewrite Hp. }
  split.
  { intros Hh. subst req. cbn.
    assert (Hhost : match hookHost (options this) with
                    | Some h => if truthy h then h else authHost (options this)
                    | None => authHost (options this)
                    end = authHost (options this)).
    { destruct Hh as [->| ->]; reflexivity. }
    rewrite Hhost. split; [intros p Hp|intros Hp]; now rewrite Hp. }
  split; assumption.
Qed.

(** ** Two joins at once *)

Lemma join_members_read_run (sid channel u : string) (v : option Value)
    (l : list Member) (st : State) :
  userIds st !! sid = Some u → store_error st = None → as_list v = Some l →
  let new := filter (λ m, alive st channel (socketId m) = true ∧ userId m ≠ u) l
             ++ [{| userId := u; socketId := sid |}] in
  run (join_members_read sid channel (Resolved v)) st =
    (Done (),
     set_store (insert (count_key channel) (VNumber (length new)))
       (set_store (insert (members_key channel) (VMembers new)) st),
     [Clients channel; DbSet (members_key channel) (VMembers new);
      DbSet (count_key channel) (VNumber (length new))]).
Proof.
  intros Hu Hok Hl new. subst new. exec. cbn. rewrite Hu, Hl. cbn.
  rewrite Hok. cbn. rewrite Hok. reflexivity.
Qed.

Lemma join_start_public_run (this : Channel) (sid channel u : string) (data : JoinData)
    (st : State) :
  data_channel data = Some channel → channel ≠ "" → isPrivate channel = false →
  userId_after channel (userIds st !! sid) = Some u → u ≠ "" →
  store_error st = None →
  run (join_start this sid data) st =
    (Done (Some (Resolved (store st !! members_key channel))),
     registered sid channel (identified sid channel st),
     trace (run (onJoin this sid channel) st)
     ++ [SocketJoin sid channel; DbGet (members_key channel)]).
Proof.
  intros Hch Hne Hpub Hu Hune Hok. apply truthy_true in Hne. apply truthy_true in Hune.
  pose proof (onJoin_userId this sid channel st) as Hid. rewrite Hu in Hid.
  unfold join_start. rewrite Hch, Hne, Hpub. rewrite run_bind.
  revert Hid. rewrite !onJoin_run. unfold final, trace. cbn [fst snd].
  fold (identified sid channel st). intros Hid.
  assert (Hok' : store_error (identified sid channel st) = None) by exact Hok.
  assert (Hst : store (identified sid channel st) = store st) by reflexivity.
  rewrite <- Hst. clear Hst. generalize dependent (identified sid channel st).
  intros st0 Hid Hok'. exec. cbn. rewrite Hid, Hune. cbn. rewrite Hok'. cbn.
  rewrite <- ?app_assoc. reflexivity.
Qed.

(** The two steps, one after the other, are [join]. *)
Lemma join_is_start_then_finish (this : Channel) (sid : string) (data : JoinData) (st : State) :
  run (join this sid data) st
  = run (pending ← join_start this sid data ; join_finish sid data pending) st.
Proof.
  unfold join, join_start, join_finish.
  destruct (data_channel data) as [channel|]; [|reflexivity].
  destruct (truthy channel); [|reflexivity].
  destruct (isPrivate channel).
  - rewrite !run_bind.
    destruct (run (joinPrivate this sid data channel) st) as [[[[]|e] st'] t];
      [|reflexivity].
    unfold run, mret, M_ret. cbn. now rewrite !app_nil_r.
  - rewrite !run_bind.
    destruct (run (onJoin this sid channel) st) as [[[[]|e] st'] t]; [|reflexivity].
    rewrite !run_bind.
    destruct (run (socket_join sid channel) st') as [[[[]|e] st''] t']; [|reflexivity].
    rewrite !run_bind. unfold run at 1 3, gets at 1 2.
    destruct (userIds st'' !! sid) as [u|]; cycle 1.
    { unfold run, mret, M_ret. cbn. now rewrite !app_nil_r. }
    destruct (truthy u); cycle 1.
    { unfold run, mret, M_ret. cbn. now rewrite !app_nil_r. }
    rewrite !run_bind.
    destruct (run (getMembers channel) st'') as [[[r|e] st3] t3]; [|reflexivity].
    unfold run at 2, mret at 1, M_ret at 1.
    destruct (run (join_members_read sid channel r) st3) as [[o st4] t4].
    cbn. now rewrite !app_nil_r, <- !app_assoc.
Qed.

(** X20. The lost update.  Two connections join the same channel (not
    private-style) and both handlers return before either answer of the
    store is handled: both read the same list, and the write of the second
    overwrites the write of the first.  The list on record then ends with
    the second connection and holds no entry of the first one, which is in
    the room nevertheless; the count is the length of that list. *)
Theorem interleaved_joins_lose_the_first (this : Channel) (a b channel ua ub : string)
    (data : JoinData) (S : list Member) (st : State) :
  data_channel data = Some channel → channel ≠ "" → isPrivate channel = false →
  store_error st = None → persisted_members st channel = Some S →
  a ≠ b →
  userId_after channel (userIds st !! a) = Some ua → ua ≠ "" →
  userId_after channel (userIds st !! b) = Some ub → ub ≠ "" →
  (∀ m, m ∈ S → socketId m ≠ a) →
  let r := run (joins_interleaved this a b data) st in
  let recorded := filter (λ m, alive (final r) channel (socketId m) = true
                               ∧ userId m ≠ ub) S
                  ++ [{| userId := ub; socketId := b |}] in
  outcome r = Done ()
  ∧ persisted_members (final r) channel = Some recorded
  ∧ store (final r) !! count_key channel = Some (VNumber (length recorded))
  ∧ isInChannel (final r) a channel = true
  ∧ isInChannel (final r) b channel = true
  ∧ (∀ m, m ∈ recorded → socketId m ≠ a).
Proof.
  intros Hch Hne Hpub Hok HS Hab Hua Huane Hub Hubne Hfresh r recorded.
  set (sa := registered a channel (identified a channel st)).
  set (sb := registered b channel (identified b channel sa)).
  assert (Hub' : userId_after channel (userIds sa !! b) = Some ub).
  { rewrite <- Hub. f_equal. unfold sa, registered, identified. cbn.
    destruct (match_user channel) as [d|]; [destruct (truthy d)|]; try reflexivity.
    apply lookup_insert_ne, Hab. }
  assert (Hida : userIds sb !! a = Some ua).
  { pose proof (onJoin_userId this a channel st) as Hid.
    rewrite onJoin_final, Hua in Hid. rewrite <- Hid.
    unfold sb, sa, registered, identified. cbn.
    destruct (match_user channel) as [d|]; [destruct (truthy d)|]; try reflexivity.
    apply lookup_insert_ne. congruence. }
  assert (Hidb : userIds sb !! b = Some ub).
  { pose proof (onJoin_userId this b channel sa) as Hid.
    rewrite onJoin_final, Hub' in Hid. exact Hid. }
  set (la := filter (λ m, alive sb channel (socketId m) = true ∧ userId m ≠ ua) S
             ++ [{| userId := ua; socketId := a |}]).
  set (sa' := set_store (insert (count_key channel) (VNumber (length la)))
                (set_store (insert (members_key channel) (VMembers la)) sb)).
  set (lb := filter (λ m, alive sa' channel (socketId m) = true ∧ userId m ≠ ub) S
             ++ [{| userId := ub; socketId := b |}]).
  set (sb' := set_store (insert (count_key channel) (VNumber (length lb)))
                (set_store (insert (members_key channel) (VMembers lb)) sa')).
  assert (Hrun : outcome r = Done () ∧ final r = sb').
  { subst r. unfold joins_interleaved. rewrite run_bind.
    rewrite (join_start_public_run this a channel ua data st Hch Hne Hpub Hua Huane Hok).
    fold sa. rewrite run_bind.
    rewrite (join_start_public_run this b channel ub data sa Hch Hne Hpub Hub' Hubne Hok).
    fold sb. rewrite run_bind. unfold join_finish. rewrite Hch.
    rewrite (join_members_read_run a channel ua (store st !! members_key channel) S sb
               Hida Hok HS).
    cbv zeta. fold la. fold sa'.
    change (store sa !! members_key channel) with (store st !! members_key channel).
    rewrite (join_members_read_run b channel ub (store st !! members_key channel) S sa'
               Hidb Hok HS).
    cbv zeta. fold lb. fold sb'. split; reflexivity. }
  destruct Hrun as [Hdone Hfinal].
  assert (Hrec : recorded = lb).
  { subst recorded lb. now rewrite Hfinal. }
  split; [exact Hdone|]. rewrite Hrec, Hfinal.
  split.
  { unfold persisted_members, sb'. cbn.
    rewrite lookup_insert_ne by (symmetry; apply members_key_not_count).
    now rewrite lookup_insert_eq. }
  split; [unfold sb'; cbn; apply lookup_insert_eq|].
  split.
  { apply isInChannel_joined; [exact Hne|].
    unfold alive, sb', sa', sb, sa, registered. cbn.
    apply bool_decide_eq_true, elem_of_union_r, elem_of_union_l, elem_of_singleton.
    reflexivity. }
  split.
  { apply isInChannel_joined; [exact Hne|].
    unfold alive, sb', sa', sb, registered. cbn.
    apply bool_decide_eq_true, elem_of_union_l, elem_of_singleton. reflexivity. }
  intros m Hm. subst lb. apply elem_of_app in Hm as [Hm|Hm].
  - apply list_elem_of_filter in Hm as [_ Hm]. apply Hfresh, Hm.
  - apply list_elem_of_singleton in Hm. subst m. cbn. congruence.
Qed.

Lemma interleaved_joins_lose_the_first_witness :
  let st := {| store := ∅; store_error := None; rooms := ∅;
               userIds := {[ "A" := "7"; "B" := "9" ]}; cookies := ∅ |} in
  persisted_members (final (run (joins_interleaved server "A" "B" (join_request "lobby")) st))
    "lobby" = Some [ {| userId := "9"; socketId := "B" |} ]
  ∧ persisted_members
      (final (run (join server "A" (join_request "lobby") ;;
                   join server "B" (join_request "lobby")) st)) "lobby"
    = Some [ {| userId := "7"; socketId := "A" |}; {| userId := "9"; socketId := "B" |} ].
Proof.
  cbv zeta. split; [|vm_compute; reflexivity].
  pose proof (interleaved_joins_lose_the_first server "A" "B" "lobby" "7" "9"
                (join_request "lobby") []
                {| store := ∅; store_error := None; rooms := ∅;
                   userIds := {[ "A" := "7"; "B" := "9" ]}; cookies := ∅ |}
                eq_refl) as H.
  cbv zeta in H.
  destruct H as (_ & Hl & _);
    [discriminate|reflexivity|reflexivity|reflexivity|discriminate
    |reflexivity|discriminate|reflexivity|discriminate
    |intros m Hm; inversion Hm|].
  rewrite Hl. reflexivity.
Defined.

(** X21. Without interleaving nothing is lost: when two connections of
    different users join the same channel (not private-style) one after the
    other, the list on record afterwards holds both, the first before the
    second, and the count is its length. *)
Theorem sequential_joins_record_both (this : Channel) (a b channel ua ub : string)
    (data : JoinData) (S : list Member) (st : State) :
  data_channel data = Some channel → channel ≠ "" → isPrivate channel = false →
  store_error st = None → persisted_members st channel = Some S →
  a ≠ b →
  userId_after channel (userIds st !! a) = Some ua → ua ≠ "" →
  userId_after channel (userIds st !! b) = Some ub → ub ≠ "" →
  ua ≠ ub →
  let after := final (run (join this b data) (final (run (join this a data) st))) in
  ∃ kept,
    persisted_members after channel
      = Some (kept ++ [ {| userId := ua; socketId := a |};
                        {| userId := ub; socketId := b |} ])
    ∧ store after !! count_key channel = Some (VNumber (length kept + 2))
    ∧ (∀ m, m ∈ kept → m ∈ S ∧ userId m ≠ ua ∧ userId m ≠ ub)
    ∧ isInChannel after a channel = true ∧ isInChannel after b channel = true.
Proof.
  intros Hch Hne Hpub Hok HS Hab Hua Huane Hub Hubne Hdiff after.
  pose proof Huane as Hta. apply truthy_true in Hta.
  pose proof Hubne as Htb. apply truthy_true in Htb.
  set (sa := registered a channel (identified a channel st)).
  set (la := filter (λ m, alive sa channel (socketId m) = true ∧ userId m ≠ ua) S
             ++ [{| userId := ua; socketId := a |}]).
  set (sa' := set_store (insert (count_key channel) (VNumber (length la)))
                (set_store (insert (members_key channel) (VMembers la)) sa)).
  assert (Hfirst : final (run (join this a data) st) = sa').
  { rewrite (join_public_final this a channel data st Hch Hne Hpub). cbv zeta. fold sa.
    pose proof (onJoin_userId this a channel st) as Hid. rewrite onJoin_final, Hua in Hid.
    change (userIds sa !! a) with (userIds (identified a channel st) !! a).
    rewrite Hid, Hta.
    change (store_error sa) with (store_error st).
    change (persisted_members sa channel) with (persisted_members st channel).
    now rewrite Hok, HS. }
  set (sb := registered b channel (identified b channel sa')).
  set (lb := filter (λ m, alive sb channel (socketId m) = true ∧ userId m ≠ ub) la
             ++ [{| userId := ub; socketId := b |}]).
  assert (Hsecond : after
    = set_store (insert (count_key channel) (VNumber (length lb)))
        (set_store (insert (members_key channel) (VMembers lb)) sb)).
  { subst after. rewrite Hfirst.
    rewrite (join_public_final this b channel data sa' Hch Hne Hpub). cbv zeta. fold sb.
    assert (Hidb : userIds sb !! b = Some ub).
    { pose proof (onJoin_userId this b channel sa') as Hid. rewrite onJoin_final in Hid.
      change (userIds sb !! b) with (userIds (identified b channel sa') !! b).
      rewrite Hid, <- Hub. f_equal. unfold sa', sa, registered, identified. cbn.
      destruct (match_user channel) as [d|]; [destruct (truthy d)|]; try reflexivity.
      apply lookup_insert_ne, Hab. }
    rewrite Hidb, Htb.
    change (store_error sb) with (store_error st). rewrite Hok.
    assert (Hl : persisted_members sb channel = Some la).
    { unfold persisted_members, sb, sa'. cbn.
      rewrite lookup_insert_ne by (symmetry; apply members_key_not_count).
      now rewrite lookup_insert_eq. }
    now rewrite Hl. }
  assert (Halive_a : alive sb channel a = true).
  { unfold alive, sb, sa', sa, registered. cbn.
    apply bool_decide_eq_true, elem_of_union_r, elem_of_union_l, elem_of_singleton.
    reflexivity. }
  exists (filter (λ m, alive sb channel (socketId m) = true ∧ userId m ≠ ub)
            (filter (λ m, alive sa channel (socketId m) = true ∧ userId m ≠ ua) S)).
  assert (Hlb : lb = filter (λ m, alive sb channel (socketId m) = true ∧ userId m ≠ ub)
                       (filter (λ m, alive sa channel (socketId m) = true ∧ userId m ≠ ua) S)
                     ++ [ {| userId := ua; socketId := a |};
                          {| userId := ub; socketId := b |} ]).
  { subst lb la. rewrite filter_app.
    rewrite (filter_cons_True _ {| userId := ua; socketId := a |}) by (cbn; auto).
    rewrite filter_nil, <- app_assoc. reflexivity. }
  rewrite Hsecond.
  split.
  { unfold persisted_members. cbn.
    rewrite lookup_insert_ne by (symmetry; apply members_key_not_count).
    rewrite lookup_insert_eq. cbn. now rewrite Hlb. }
  split.
  { cbn. rewrite lookup_insert_eq, Hlb, length_app. reflexivity. }
  split.
  { intros m Hm. apply list_elem_of_filter in Hm as [[_ Hm2] Hm].
    apply list_elem_of_filter in Hm as [[_ Hm1] Hm]. auto. }
  split; [apply isInChannel_joined; [exact Hne|exact Halive_a]|].
  apply isInChannel_joined; [exact Hne|].
  unfold alive, sb, registered. cbn.
  apply bool_decide_eq_true, elem_of_union_l, elem_of_singleton. reflexivity.
Qed.

Lemma sequential_joins_record_both_witness :
  let st := {| store := ∅; store_error := None; rooms := ∅;
               userIds := {[ "A" := "7"; "B" := "9" ]}; cookies := ∅ |} in
  let after := final (run (join server "B" (join_request "lobby"))
                        (final (run (join server "A" (join_request "lobby")) st))) in
  ∃ kept, persisted_members after "lobby"
          = Some (kept ++ [ {| userId := "7"; socketId := "A" |};
                            {| userId := "9"; socketId := "B" |} ]).
Proof.
  cbv zeta.
  pose proof (sequential_joins_record_both server "A" "B" "lobby" "7" "9"
                (join_request "lobby") []
                {| store := ∅; store_error := None; rooms := ∅;
                   userIds := {[ "A" := "7"; "B" := "9" ]}; cookies := ∅ |}
                eq_refl) as H.
  cbv zeta in H.
  destruct H as (kept & Hl & _);
    [discriminate|reflexivity|reflexivity|reflexivity|discriminate
    |reflexivity|discriminate|reflexivity|discriminate|discriminate|].
  exists kept. exact Hl.
Defined.

(** ** Client events that cannot be read *)


(** ** Client events that are passed on *)

